(** * agentforce-voice: credential extraction, session start and command relay

    A shallow embedding of the server logic of [app.py]:

    - [_get_by_path], [_find_first_jwt], [_find_first_wss] and
      [extract_livekit_creds], which pick the media token and the wire URL
      out of the JSON answer of the join call;
    - [start_session], the handler that chains the three upstream calls;
    - [_queue_for], [enqueue_command] and [poll_commands], the per-device
      command queues with their long poll.

    Conventions.  A Python [str] is a [string], one [ascii] per code point;
    the model covers the code points below 256.  The Python value
    [None] and the JSON value [null] are the same object and are both
    written [JNull]; where a variable holds [None] or a [str] only, it is an
    [option string]. *)

From Stdlib Require Import String Ascii List Bool ZArith QArith Qround Lia Lqa.
From stdpp Require Import gmap strings list fin_maps.

Import ListNotations.
Local Open Scope string_scope.
Local Open Scope list_scope.

(** ** Python strings *)

Module PyStr.

(** [s.count(c)] for a one-character needle. *)
Fixpoint count (c : ascii) (s : string) : nat :=
  match s with
  | EmptyString => 0
  | String a s' => (if Ascii.eqb a c then 1 else 0) + count c s'
  end.

(** [s.split(c)] for a one-character separator: never the empty list. *)
Fixpoint split (c : ascii) (s : string) : list string :=
  match s with
  | EmptyString => [EmptyString]
  | String a s' =>
      if Ascii.eqb a c then EmptyString :: split c s'
      else match split c s' with
           | [] => [String a EmptyString]
           | w :: ws => String a w :: ws
           end
  end.

(** [s.startswith(p)]. *)
Definition startswith (p s : string) : bool := String.prefix p s.

(** Truth value of a [str]: only the empty string is false. *)
Definition truthy (s : string) : bool :=
  match s with EmptyString => false | String _ _ => true end.

(** Truth value of a variable that holds [None] or a [str]. *)
Definition truthy_opt (o : option string) : bool :=
  match o with None => false | Some s => truthy s end.

(** [str.isspace] on one character, for the code points below 256:
    TAB, LF, VT, FF, CR, FS, GS, RS, US, space, NEL and NBSP. *)
Definition isspace (a : ascii) : bool :=
  let n := nat_of_ascii a in
  (((9 <=? n) && (n <=? 13)) || ((28 <=? n) && (n <=? 32))
   || (n =? 133) || (n =? 160))%nat.

Fixpoint lstrip (s : string) : string :=
  match s with
  | EmptyString => EmptyString
  | String a s' => if isspace a then lstrip s' else s
  end.

Fixpoint rstrip (s : string) : string :=
  match s with
  | EmptyString => EmptyString
  | String a s' =>
      match rstrip s' with
      | EmptyString => if isspace a then EmptyString else String a EmptyString
      | r => String a r
      end
  end.

(** [s.strip()]. *)
Definition strip (s : string) : string := rstrip (lstrip s).

(** All characters of [s] pass [p]. *)
Fixpoint all (p : ascii -> bool) (s : string) : bool :=
  match s with
  | EmptyString => true
  | String a s' => p a && all p s'
  end.

(** The one-character string "\n". *)
Definition LF : string := String "010" EmptyString.

End PyStr.

(** ** Regular expressions, as far as [re.match] is used *)

Module Regex.

Inductive re : Type :=
| Void
| Eps
| Class (p : ascii -> bool)
| Cat (r1 r2 : re)
| Alt (r1 r2 : re)
| Star (r : re).

(** [r+] *)
Definition Plus (r : re) : re := Cat r (Star r).

(** A literal character, [\.] for instance. *)
Definition Chr (c : ascii) : re := Class (Ascii.eqb c).

(** [$] closing a pattern (no MULTILINE flag): the position is the end of
    the string, or it is just before a line feed that ends the string. *)
Definition Dollar : re := Alt Eps (Chr "010"%char).

Fixpoint nullable (r : re) : bool :=
  match r with
  | Void => false
  | Eps => true
  | Class _ => false
  | Cat r1 r2 => nullable r1 && nullable r2
  | Alt r1 r2 => nullable r1 || nullable r2
  | Star _ => true
  end.

Fixpoint deriv (a : ascii) (r : re) : re :=
  match r with
  | Void => Void
  | Eps => Void
  | Class p => if p a then Eps else Void
  | Cat r1 r2 =>
      if nullable r1 then Alt (Cat (deriv a r1) r2) (deriv a r2)
      else Cat (deriv a r1) r2
  | Alt r1 r2 => Alt (deriv a r1) (deriv a r2)
  | Star r1 => Cat (deriv a r1) (Star r1)
  end.

(** Does [r] span the whole of [s]? *)
Fixpoint spans (r : re) (s : string) : bool :=
  match s with
  | EmptyString => nullable r
  | String a s' => spans (deriv a r) s'
  end.

(** [re.compile('^' r '$').match(s)] is not [None]: the pattern is tried at
    position 0 only, and [$] lets one final line feed go unmatched. *)
Definition py_match_anchored (r : re) (s : string) : bool :=
  spans (Cat r Dollar) s.

(** The strings of a regular expression. *)
Inductive lang : re -> string -> Prop :=
| lang_eps : lang Eps EmptyString
| lang_class p a : p a = true -> lang (Class p) (String a EmptyString)
| lang_cat r1 r2 s1 s2 :
    lang r1 s1 -> lang r2 s2 -> lang (Cat r1 r2) (s1 +:+ s2)
| lang_alt_l r1 r2 s : lang r1 s -> lang (Alt r1 r2) s
| lang_alt_r r1 r2 s : lang r2 s -> lang (Alt r1 r2) s
| lang_star_nil r : lang (Star r) EmptyString
| lang_star_cons r s1 s2 :
    lang r s1 -> lang (Star r) s2 -> lang (Star r) (s1 +:+ s2).

End Regex.

(** ** JSON values, as [json.loads] and [response.json()] build them *)

Module Json.

(** A [dict] keeps its members in insertion order, which for a parsed
    document is the order of the text; [values()] walks them in that order.
    The keys of a [dict] are pairwise distinct. *)
#[local] Unset Elimination Schemes.
Inductive json : Type :=
| JNull
| JBool (b : bool)
| JNumber (q : Q)
| JString (s : string)
| JArray (items : list json)
| JObject (members : list (string * json)).
#[local] Set Elimination Schemes.

(** [d.get(k)]; [k in d] is [is_Some] of it. *)
Fixpoint dict_get (k : string) (members : list (string * json)) : option json :=
  match members with
  | [] => None
  | (k', v) :: rest => if String.eqb k k' then Some v else dict_get k rest
  end.

(** Truth value of a Python object that came out of JSON. *)
Definition truthy (v : json) : bool :=
  match v with
  | JNull => false
  | JBool b => b
  | JNumber q => negb (Qeq_bool q 0)
  | JString s => PyStr.truthy s
  | JArray items => match items with [] => false | _ :: _ => true end
  | JObject members => match members with [] => false | _ :: _ => true end
  end.

(** The loop [for x in xs: t = f(x); if t: return t], falling through with
    [None] when no element gives a true [t]. *)
Definition first_true {A : Type} (f : A -> option string)
  : list A -> option string :=
  fix loop (xs : list A) : option string :=
    match xs with
    | [] => None
    | x :: rest =>
        let t := f x in
        if PyStr.truthy_opt t then t else loop rest
    end.

(** The string values of a document, depth first, members and elements in
    their order. *)
Fixpoint strings_of (v : json) : list string :=
  match v with
  | JString s => [s]
  | JArray items => concat (map strings_of items)
  | JObject members => concat (map (fun m => strings_of (snd m)) members)
  | _ => []
  end.

End Json.

(** ** The credential broker *)

Module Broker.
Import Json.

(** The character class [[A-Za-z0-9-_]]: three ranges, then a hyphen that
    bounds no range, then the underscore. *)
Definition in_range (lo hi a : ascii) : bool :=
  ((nat_of_ascii lo <=? nat_of_ascii a)
   && (nat_of_ascii a <=? nat_of_ascii hi))%nat.

Definition b64url (a : ascii) : bool :=
  in_range "A" "Z" a || in_range "a" "z" a || in_range "0" "9" a
  || Ascii.eqb a "-" || Ascii.eqb a "_".

Definition segment : Regex.re := Regex.Plus (Regex.Class b64url).

(** The body of [jwt_re], between [^] and [$]. *)
Definition jwt_body : Regex.re :=
  Regex.Cat segment
    (Regex.Cat (Regex.Chr ".") (Regex.Cat segment
      (Regex.Cat (Regex.Chr ".") segment))).

(** [jwt_re.match(s)] gives a match object. *)
Definition jwt_re_match (s : string) : bool :=
  Regex.py_match_anchored jwt_body s.

(** The token shape in the words of the specification: three segments
    joined by periods, each a non-empty run of URL-safe base64 characters.
    Not taken from the program; the pattern above is compared with it. *)
Definition spec_segment (x : string) : bool :=
  PyStr.truthy x && PyStr.all b64url x.

Definition spec_token_shape (s : string) : bool :=
  match PyStr.split "." s with
  | [a; b; c] => spec_segment a && spec_segment b && spec_segment c
  | _ => false
  end.

Fixpoint walk (cur : json) (parts : list string) : json :=
  match parts with
  | [] => cur
  | p :: rest =>
      match cur with
      | JObject members =>
          match dict_get p members with
          | Some v => walk v rest
          | None => JNull
          end
      | _ => JNull
      end
  end.

Definition _get_by_path (obj : json) (path : string) : json :=
  walk obj (PyStr.split "." path).

Fixpoint _find_first_jwt (obj : json) : option string :=
  match obj with
  | JObject members => first_true (fun m => _find_first_jwt (snd m)) members
  | JArray items => first_true _find_first_jwt items
  | JString s => if jwt_re_match s then Some s else None
  | _ => None
  end.

Fixpoint _find_first_wss (obj : json) : option string :=
  match obj with
  | JObject members => first_true (fun m => _find_first_wss (snd m)) members
  | JArray items => first_true _find_first_wss items
  | JString s => if PyStr.startswith "wss://" s then Some s else None
  | _ => None
  end.

Definition token_paths : list string :=
  ["room.token"; "room.accessToken"; "room.jwt"; "roomToken"; "roomJWT";
   "token"; "accessToken"; "jwt"].

Definition url_paths : list string :=
  ["endpoint"; "room.url"; "room.serverUrl"; "room.wss"; "wss"; "wssUrl";
   "wsUrl"; "url"].

(** [t.count(".") == 2], asked of a [t] that is a [str]. *)
Definition two_dots (t : string) : bool := (PyStr.count "." t =? 2)%nat.

(** [u.startswith("wss://")], asked of a [u] that is a [str]. *)
Definition is_wss (u : string) : bool := PyStr.startswith "wss://" u.

(** The loop [for p in paths: v = _get_by_path(join_data, p);
    if isinstance(v, str) and ok(v): found = v; break], entered with
    [found = None]. *)
Fixpoint first_on_paths (ok : string -> bool) (join_data : json)
    (paths : list string) : option string :=
  match paths with
  | [] => None
  | p :: rest =>
      match _get_by_path join_data p with
      | JString s =>
          if ok s then Some s else first_on_paths ok join_data rest
      | _ => first_on_paths ok join_data rest
      end
  end.

Definition token_by_paths (join_data : json) : option string :=
  first_on_paths two_dots join_data token_paths.

Definition url_by_paths (join_data : json) : option string :=
  first_on_paths is_wss join_data url_paths.

Definition extract_livekit_creds (join_data : json)
  : option string * option string :=
  let tok := token_by_paths join_data in
  let url := url_by_paths join_data in
  let tok := if negb (PyStr.truthy_opt tok) then _find_first_jwt join_data
             else tok in
  let url := if negb (PyStr.truthy_opt url) then _find_first_wss join_data
             else url in
  (tok, url).

(** *** The three upstream calls and [start_session] *)

Inductive http_method : Type := GET | POST.

(** What [requests.get] and [requests.post] are handed; the JSON body of a
    request is not recorded, no reply of the handler depends on it. *)
Record http_request : Type := {
  http_verb : http_method;
  http_url : string;
  http_origin : string;
  http_authorization : option string
}.

(** The exceptions the handler tells apart: [except
    requests.exceptions.RequestException] comes first, [except Exception]
    takes every other one. *)
Inductive exn : Type :=
| RequestException
| ValueError
| TypeError
| AttributeError
| FormatError.

(** One upstream exchange, through [raise_for_status()] and
    [response.json()]: a parsed body, or an exception. *)
Inductive http_reply : Type :=
| Replied (body : json)
| Failed (e : exn).

Inductive outcome (A : Type) : Type :=
| Done (a : A)
| Raised (e : exn).
Arguments Done {A} a.
Arguments Raised {A} e.

(** A computation that may call upstream: it is handed the requests sent so
    far and returns them extended, oldest first. *)
Definition io (A : Type) : Type :=
  list http_request -> outcome A * list http_request.

Definition ret {A : Type} (a : A) : io A := fun log => (Done a, log).

Definition raise {A : Type} (e : exn) : io A := fun log => (Raised e, log).

Definition bind {A B : Type} (m : io A) (k : A -> io B) : io B :=
  fun log =>
    match m log with
    | (Done a, log') => k a log'
    | (Raised e, log') => (Raised e, log')
    end.

Notation "'do' x <- m ; k" := (bind m (fun x => k))
  (at level 10, x binder, m at level 100, k at level 200,
   format "'[v' 'do'  x  <-  m ; '/' k ']'").

(** [a or b] on two [str] values. *)
Definition str_or (a b : string) : string :=
  if PyStr.truthy a then a else b.

(** [config.get(key) or fallback], the field being a [str] when present. *)
Definition field_or (field : option string) (fallback : string) : string :=
  match field with
  | Some s => str_or s fallback
  | None => fallback
  end.

(** [v.get(key)]: only a [dict] has the method. *)
Definition py_get (v : json) (key : string) : outcome json :=
  match v with
  | JObject members =>
      Done (match dict_get key members with Some x => x | None => JNull end)
  | _ => Raised AttributeError
  end.

(** [v[:50]] is defined on [str] and [list] values only. *)
Definition sliceable (v : json) : bool :=
  match v with
  | JString _ | JArray _ => true
  | _ => false
  end.

Inductive error_message : Type :=
| MissingConfiguration (fields : list string)
| AccessTokenNotFound
| SessionIdNotFound
| CredentialsNotFound
| ApiRequestFailed
| UnexpectedError.

(** The answers of [/api/start-session]. *)
Inductive session_response : Type :=
| Credentials (sessionId : json) (livekitUrl token : string)
| ErrorResponse (status : Z) (error : error_message) (debug : option json).

Record session_config : Type := {
  bootstrapUrl : option string;
  agentId : option string;
  domainUrl : option string;
  salesforceEndpoint : option string;
  userId : option string
}.

Section Upstream.

(** Module-level configuration, read from the environment at start-up. *)
Variables BOOTSTRAP_URL_TEMPLATE AGENT_ID DOMAIN_URL SALESFORCE_ENDPOINT
  : string.

(** [template.format(AGENT_ID=value)], [None] when it raises. *)
Variable str_format : string -> string -> option string.

(** [str(v)], as an f-string renders a value; a [str] renders as itself. *)
Variable py_repr : json -> string.

(** The third party: the reply to the [n]-th request of this handler run. *)
Variable upstream : nat -> http_request -> http_reply.

Definition py_str (v : json) : string :=
  match v with
  | JString s => s
  | _ => py_repr v
  end.

(** Send one request and wait for its reply. *)
Definition send (rq : http_request) : io json :=
  fun log =>
    (match upstream (length log) rq with
     | Replied body => Done body
     | Failed e => Raised e
     end, log ++ [rq]).

Definition get_bootstrap_token
    (bootstrap_url_template agent_id domain_url : string) : io json :=
  let bootstrap_url := str_or bootstrap_url_template BOOTSTRAP_URL_TEMPLATE in
  let agent_id_val := str_or agent_id AGENT_ID in
  let domain_url_val := str_or domain_url DOMAIN_URL in
  if negb (PyStr.truthy bootstrap_url) || negb (PyStr.truthy agent_id_val)
  then raise ValueError
  else
    match str_format bootstrap_url agent_id_val with
    | None => raise FormatError
    | Some url =>
        send {| http_verb := GET; http_url := url;
                http_origin := str_or domain_url_val "";
                http_authorization := None |}
    end.

Definition create_session (access_token : json)
    (agent_id salesforce_endpoint domain_url : string) : io json :=
  let salesforce_endpoint_val :=
    str_or salesforce_endpoint SALESFORCE_ENDPOINT in
  let agent_id_val := str_or agent_id AGENT_ID in
  let domain_url_val := str_or domain_url DOMAIN_URL in
  if negb (PyStr.truthy salesforce_endpoint_val)
     || negb (PyStr.truthy agent_id_val)
  then raise ValueError
  else
    send {| http_verb := POST;
            http_url := salesforce_endpoint_val
              +:+ "/einstein/ai-agent/v1.1/agents/" +:+ agent_id_val
              +:+ "/sessions";
            http_origin := str_or domain_url_val "";
            http_authorization := Some ("Bearer " +:+ py_str access_token) |}.

Definition join_realtime_session (access_token session_id : json)
    (salesforce_endpoint domain_url : string) : io json :=
  let salesforce_endpoint_val :=
    str_or salesforce_endpoint SALESFORCE_ENDPOINT in
  let domain_url_val := str_or domain_url DOMAIN_URL in
  if negb (PyStr.truthy salesforce_endpoint_val)
  then raise ValueError
  else
    send {| http_verb := POST;
            http_url := salesforce_endpoint_val
              +:+ "/einstein/ai-agent/v1.1/realtime/sessions/"
              +:+ py_str session_id +:+ "/join";
            http_origin := str_or domain_url_val "";
            http_authorization := Some ("Bearer " +:+ py_str access_token) |}.

(** Lift a step that may raise but sends nothing. *)
Definition lift {A : Type} (o : outcome A) : io A := fun log => (o, log).

(** The end of the [try] block, from the join reply on. *)
Definition answer_from_join (session_id join_data : json)
  : session_response :=
  match extract_livekit_creds join_data with
  | (Some livekit_token, Some livekit_url) =>
      if negb (PyStr.truthy livekit_token) || negb (PyStr.truthy livekit_url)
      then ErrorResponse 500 CredentialsNotFound (Some join_data)
      else Credentials session_id livekit_url livekit_token
  | _ => ErrorResponse 500 CredentialsNotFound (Some join_data)
  end.

(** The body of the [try] block, after the configuration was checked. *)
Definition session_steps
    (bootstrap_url agent_id domain_url salesforce_endpoint : string)
  : io session_response :=
  do token_data <- get_bootstrap_token bootstrap_url agent_id domain_url ;
  do snake <- lift (py_get token_data "access_token") ;
  do access_token <- (if truthy snake then ret snake
                      else lift (py_get token_data "accessToken")) ;
  if negb (truthy access_token)
  then ret (ErrorResponse 500 AccessTokenNotFound None)
  else
    do _ <- (if sliceable access_token then ret tt else raise TypeError) ;
    do session_data <-
      create_session access_token agent_id salesforce_endpoint domain_url ;
    do session_id <- lift (py_get session_data "sessionId") ;
    if negb (truthy session_id)
    then ret (ErrorResponse 500 SessionIdNotFound None)
    else
      do join_data <- join_realtime_session access_token session_id
                     salesforce_endpoint domain_url ;
      ret (answer_from_join session_id join_data).

(** The two [except] clauses. *)
Definition handle (o : outcome session_response) : session_response :=
  match o with
  | Done r => r
  | Raised RequestException => ErrorResponse 502 ApiRequestFailed None
  | Raised _ => ErrorResponse 500 UnexpectedError None
  end.

(** [start_session]: the answer, and the upstream requests in the order
    they were sent. *)
Definition start_session (config : session_config)
  : session_response * list http_request :=
  let bootstrap_url := field_or (bootstrapUrl config) BOOTSTRAP_URL_TEMPLATE in
  let agent_id := field_or (agentId config) AGENT_ID in
  let domain_url := field_or (domainUrl config) DOMAIN_URL in
  let salesforce_endpoint :=
    field_or (salesforceEndpoint config) SALESFORCE_ENDPOINT in
  if negb (PyStr.truthy bootstrap_url && PyStr.truthy agent_id
           && PyStr.truthy salesforce_endpoint)
  then
    (ErrorResponse 400
       (MissingConfiguration
          ((if PyStr.truthy bootstrap_url then [] else ["Bootstrap URL"])
           ++ (if PyStr.truthy agent_id then [] else ["Agent ID"])
           ++ (if PyStr.truthy salesforce_endpoint then []
               else ["Salesforce Endpoint"])))
       None, [])
  else
    let (o, log) :=
      session_steps bootstrap_url agent_id domain_url salesforce_endpoint []
    in (handle o, log).

End Upstream.

End Broker.

(** ** The command relay *)

Module Relay.
Import Json.

(** A queued command, the dict [{"type": command, "payload": payload}]. *)
Record command_message : Type := {
  msg_type : string;
  msg_payload : json
}.

(** The body of [POST /api/control/command]; an absent [payload] reads as
    [None]. *)
Record command_body : Type := {
  cmd_deviceId : option string;
  cmd_command : option string;
  cmd_payload : json
}.

Inductive command_response : Type :=
| Queued (deviceId : string) (queued : command_message) (queueDepth : nat)
| MissingCommand.

(** The body of [POST /api/control/poll]; an absent field takes the default
    given to [body.get]. *)
Record poll_body : Type := {
  poll_deviceId : option string;
  poll_max : option Z;
  poll_wait : option bool;
  poll_timeout : option Q
}.

Record poll_response : Type := {
  resp_deviceId : string;
  resp_commands : list command_message
}.

(** What a waiting poll sees of the rest of the world: the successive values
    of [time.time()] ([clock 0] is [start], [clock (S k)] is read by the
    [k]-th test of the [while]), and the commands that other requests append
    to this device's queue during the [k]-th [time.sleep(0.1)]. *)
Record world : Type := {
  clock : nat -> Q;
  arrivals : nat -> list command_message
}.

(** [(body.get('deviceId') or 'default-phone').strip()] *)
Definition device_of (field : option string) : string :=
  PyStr.strip (Broker.field_or field "default-phone").

(** [(body.get('command') or '').strip()] *)
Definition command_of (field : option string) : string :=
  PyStr.strip (Broker.field_or field "").

(** [COMMAND_QUEUES] maps a device id to its deque, head first.
    [_queue_for] returns the deque stored there, after storing an empty one
    if there was none. *)
Definition _queue_for (device_id : string)
    (queues : gmap string (list command_message))
  : gmap string (list command_message) * list command_message :=
  match queues !! device_id with
  | Some q => (queues, q)
  | None => (<[device_id := []]> queues, [])
  end.

Definition enqueue_command (body : command_body)
    (queues : gmap string (list command_message))
  : gmap string (list command_message) * command_response :=
  let device_id := device_of (cmd_deviceId body) in
  let command := command_of (cmd_command body) in
  let payload := cmd_payload body in
  if negb (PyStr.truthy command) then (queues, MissingCommand)
  else
    let '(queues1, q) := _queue_for device_id queues in
    let q' := q ++ [ {| msg_type := command; msg_payload := payload |} ] in
    (<[device_id := q']> queues1,
     Queued device_id {| msg_type := command; msg_payload := payload |}
       (length q')).

(** [while q and len(cmds) < max_items: cmds.append(q.popleft())]; the
    result is the deque and [cmds] when the loop is left. *)
Fixpoint drain (max_items : Z) (q cmds : list command_message)
  : list command_message * list command_message :=
  match q with
  | [] => (q, cmds)
  | m :: q' =>
      if (Z.of_nat (length cmds) <? max_items)%Z
      then drain max_items q' (cmds ++ [m])
      else (q, cmds)
  end.

Definition Qltb (a b : Q) : bool :=
  (Qnum a * QDen b <? Qnum b * QDen a)%Z.

(** The long poll, entered with [k] sleeps done: every turn reads the clock;
    in time, it drains a queue that is not empty and leaves, or sleeps and
    goes round again.  [None] stands for a request that still waits when
    the fuel is spent.  The result is the deque, [cmds] and the number of
    sleeps. *)
Fixpoint wait_loop (w : world) (timeout_s : Q) (max_items : Z)
    (fuel k : nat) (q cmds : list command_message)
  : option (list command_message * list command_message * nat) :=
  match fuel with
  | O => None
  | S fuel' =>
      if Qltb (clock w (S k) - clock w 0) timeout_s then
        match q with
        | _ :: _ => Some (drain max_items q cmds, k)
        | [] =>
            wait_loop w timeout_s max_items fuel' (S k) (q ++ arrivals w k)
              cmds
        end
      else Some (q, cmds, k)
  end.

(** [poll_commands]: the queues afterwards, the answer, and how many times
    the request slept. *)
Definition poll_commands (w : world) (fuel : nat) (body : poll_body)
    (queues : gmap string (list command_message))
  : option (gmap string (list command_message) * poll_response * nat) :=
  let device_id := device_of (poll_deviceId body) in
  let max_items := default 5%Z (poll_max body) in
  let wait := default true (poll_wait body) in
  let timeout_s := default 25%Q (poll_timeout body) in
  let '(queues1, q) := _queue_for device_id queues in
  let '(q1, cmds) := drain max_items q [] in
  if (match cmds with [] => false | _ :: _ => true end) || negb wait then
    Some (<[device_id := q1]> queues1,
          {| resp_deviceId := device_id; resp_commands := cmds |}, 0)
  else
    match wait_loop w timeout_s max_items fuel 0 q1 cmds with
    | None => None
    | Some (q2, cmds2, slept) =>
        Some (<[device_id := q2]> queues1,
              {| resp_deviceId := device_id; resp_commands := cmds2 |}, slept)
    end.

(** *** Histories

    Requests served one after the other, each poll with the world it sees
    while it waits.  The history keeps, per device, what was appended to its
    queue and what was handed out. *)

Inductive request : Type :=
| Command (body : command_body)
| Poll (w : world) (fuel : nat) (body : poll_body).

Inductive event : Type :=
| Appended (device_id : string) (ms : list command_message)
| Delivered (device_id : string) (ms : list command_message).

(** The commands that arrive during the first [n] sleeps of a poll. *)
Definition arrived (w : world) (n : nat) : list command_message :=
  concat (map (arrivals w) (seq 0 n)).

Definition serve (rq : request)
    (queues : gmap string (list command_message))
  : option (gmap string (list command_message) * list event) :=
  match rq with
  | Command body =>
      let '(queues', r) := enqueue_command body queues in
      Some (queues',
            match r with
            | Queued device_id m _ => [Appended device_id [m]]
            | MissingCommand => []
            end)
  | Poll w fuel body =>
      match poll_commands w fuel body queues with
      | None => None
      | Some (queues', r, slept) =>
          Some (queues',
                [Appended (resp_deviceId r) (arrived w slept);
                 Delivered (resp_deviceId r) (resp_commands r)])
      end
  end.

Fixpoint run (rqs : list request)
    (queues : gmap string (list command_message))
  : option (gmap string (list command_message) * list event) :=
  match rqs with
  | [] => Some (queues, [])
  | rq :: rest =>
      match serve rq queues with
      | None => None
      | Some (queues1, evs) =>
          match run rest queues1 with
          | None => None
          | Some (queues2, evs') => Some (queues2, evs ++ evs')
          end
      end
  end.

Fixpoint appended_to (device_id : string) (h : list event)
  : list command_message :=
  match h with
  | [] => []
  | Appended d ms :: h' =>
      (if String.eqb d device_id then ms else []) ++ appended_to device_id h'
  | Delivered _ _ :: h' => appended_to device_id h'
  end.

Fixpoint delivered_to (device_id : string) (h : list event)
  : list command_message :=
  match h with
  | [] => []
  | Delivered d ms :: h' =>
      (if String.eqb d device_id then ms else []) ++ delivered_to device_id h'
  | Appended _ _ :: h' => delivered_to device_id h'
  end.

(** The queue of a device, empty when none was created yet. *)
Definition queue_of (device_id : string)
    (queues : gmap string (list command_message)) : list command_message :=
  default [] (queues !! device_id).

End Relay.

(** ** The local session server and the command-line script

    [create_agent_session.py] serves the same three-call protocol on
    [/api/room/join] and a session-only variant on [/api/session/create];
    [get_livekit_creds.py] runs the three calls once from the command line.
    Their settings come from the environment alone, read without a default:
    a variable that is not set is [None]. *)

Module LocalServer.
Import Json Broker.

(** [f"{v}"] for a setting: [None] renders as the text "None". *)
Definition env_str (v : option string) : string :=
  match v with
  | Some s => s
  | None => "None"
  end.

(** The answers of the server, by status: 200 with the credentials, 200
    with a session id, 502, 500 and 404.  The text of an error is not
    kept. *)
Inductive server_response : Type :=
| RoomJoined (sessionId : json) (livekitUrl token : string)
| SessionCreated (sessionId : json)
| BadGateway
| ServerError
| NotFound.

Definition status (r : server_response) : Z :=
  match r with
  | RoomJoined _ _ _ | SessionCreated _ => 200
  | BadGateway => 502
  | ServerError => 500
  | NotFound => 404
  end.

(** [(data.get("sessionId") or "").strip()]: only a [str] has [strip]. *)
Definition provided_of (data : json) : outcome string :=
  match py_get data "sessionId" with
  | Raised e => Raised e
  | Done v =>
      if truthy v then
        match v with
        | JString s => Done (PyStr.strip s)
        | _ => Raised AttributeError
        end
      else Done (PyStr.strip "")
  end.

Section Environment.

Variables BOOTSTRAP_URL_TEMPLATE AGENT_ID DOMAIN_URL SALESFORCE_ENDPOINT
  : option string.
Variable str_format : string -> string -> option string.
Variable py_repr : json -> string.
Variable upstream : nat -> http_request -> http_reply.

Definition get_bootstrap_token : io json :=
  if negb (PyStr.truthy_opt BOOTSTRAP_URL_TEMPLATE)
     || negb (PyStr.truthy_opt AGENT_ID)
  then raise ValueError
  else
    match str_format (env_str BOOTSTRAP_URL_TEMPLATE) (env_str AGENT_ID) with
    | None => raise FormatError
    | Some url =>
        send upstream
          {| http_verb := GET; http_url := url;
             http_origin := field_or DOMAIN_URL "";
             http_authorization := None |}
    end.

Definition create_session (access_token : json) : io json :=
  if negb (PyStr.truthy_opt SALESFORCE_ENDPOINT)
  then raise ValueError
  else
    send upstream
      {| http_verb := POST;
         http_url := env_str SALESFORCE_ENDPOINT
           +:+ "/einstein/ai-agent/v1.1/agents/" +:+ env_str AGENT_ID
           +:+ "/sessions";
         http_origin := field_or DOMAIN_URL "";
         http_authorization :=
           Some ("Bearer " +:+ py_str py_repr access_token) |}.

Definition join_realtime_session (access_token session_id : json)
  : io json :=
  if negb (PyStr.truthy_opt SALESFORCE_ENDPOINT)
  then raise ValueError
  else
    send upstream
      {| http_verb := POST;
         http_url := env_str SALESFORCE_ENDPOINT
           +:+ "/einstein/ai-agent/v1.1/realtime/sessions/"
           +:+ py_str py_repr session_id +:+ "/join";
         http_origin := field_or DOMAIN_URL "";
         http_authorization :=
           Some ("Bearer " +:+ py_str py_repr access_token) |}.

(** [token_data.get("access_token") or token_data.get("accessToken")] *)
Definition access_token_of (token_data : json) : io json :=
  do snake <- lift (py_get token_data "access_token") ;
  if truthy snake then ret snake
  else lift (py_get token_data "accessToken").

(** [SessionHandler._handle]: the two [except] clauses. *)
Definition _handle (o : outcome server_response) : server_response :=
  match o with
  | Done r => r
  | Raised RequestException => BadGateway
  | Raised _ => ServerError
  end.

Definition join_room : io server_response :=
  do token_data <- get_bootstrap_token ;
  do access_token <- access_token_of token_data ;
  if negb (truthy access_token) then raise ValueError
  else
    do _ <- (if sliceable access_token then ret tt else raise TypeError) ;
    do session_data <- create_session access_token ;
    do session_id <- lift (py_get session_data "sessionId") ;
    if negb (truthy session_id) then raise ValueError
    else
      do join_data <- join_realtime_session access_token session_id ;
      match extract_livekit_creds join_data with
      | (Some tok, Some wss) =>
          if negb (PyStr.truthy tok) || negb (PyStr.truthy wss)
          then raise ValueError
          else ret (RoomJoined session_id wss tok)
      | _ => raise ValueError
      end.

Definition create_session_only (data : json) : io server_response :=
  do token_data <- get_bootstrap_token ;
  do access_token <- access_token_of token_data ;
  if negb (truthy access_token) then raise ValueError
  else
    do provided <- lift (provided_of data) ;
    if PyStr.truthy provided then ret (SessionCreated (JString provided))
    else
      do session_data <- create_session access_token ;
      do session_id <- lift (py_get session_data "sessionId") ;
      ret (SessionCreated session_id).

(** [SessionHandler.do_POST] on a path and the parsed body, which is the
    empty dict when the body does not parse: the answer, and the upstream
    requests in the order they were sent. *)
Definition do_POST (path : string) (data : json)
  : server_response * list http_request :=
  if String.eqb path "/api/room/join" then
    let (o, log) := join_room [] in (_handle o, log)
  else if String.eqb path "/api/session/create" then
    let (o, log) := create_session_only data [] in (_handle o, log)
  else (NotFound, []).

(** [get_livekit_credentials] of [get_livekit_creds.py]: the dict it
    returns, as the triple of its values, or [None] after an exception. *)
Definition get_livekit_credentials
  : option (json * option string * option string) * list http_request :=
  let steps : io (json * option string * option string) :=
    do token_data <- get_bootstrap_token ;
    do access_token <- access_token_of token_data ;
    do session_data <- create_session access_token ;
    do session_id <- lift (py_get session_data "sessionId") ;
    do join_data <- join_realtime_session access_token session_id ;
    let (livekit_token, livekit_url) := extract_livekit_creds join_data in
    ret (session_id, livekit_url, livekit_token) in
  match steps [] with
  | (Done credentials, log) => (Some credentials, log)
  | (Raised _, log) => (None, log)
  end.

End Environment.

End LocalServer.

(** * Properties *)

(** ** Strings *)

Module PyStrFacts.
Import PyStr.

Lemma sapp_nil_l (s : string) : "" +:+ s = s.
Proof. reflexivity. Qed.

Lemma sapp_cons (a : ascii) (s1 s2 : string) :
  String a s1 +:+ s2 = String a (s1 +:+ s2).
Proof. reflexivity. Qed.

(** Push [+:+] inwards, everywhere. *)
Ltac sapp := rewrite ?sapp_cons, ?sapp_nil_l in *.

Lemma sapp_nil_r (s : string) : s +:+ "" = s.
Proof. induction s as [|a s IH]; sapp; [reflexivity | now rewrite IH]. Qed.

Lemma sapp_assoc (s1 s2 s3 : string) : (s1 +:+ s2) +:+ s3 = s1 +:+ s2 +:+ s3.
Proof. induction s1 as [|a s1 IH]; sapp; [reflexivity | now rewrite IH]. Qed.

Lemma sapp_eq_nil (s1 s2 : string) : s1 +:+ s2 = "" -> s1 = "" /\ s2 = "".
Proof. destruct s1; sapp; [auto | discriminate]. Qed.

Lemma count_app (c : ascii) (s1 s2 : string) :
  count c (s1 +:+ s2) = count c s1 + count c s2.
Proof.
  induction s1 as [|a s1 IH]; sapp; simpl; [reflexivity | rewrite IH; lia].
Qed.

Lemma all_app (p : ascii -> bool) (s1 s2 : string) :
  all p (s1 +:+ s2) = all p s1 && all p s2.
Proof.
  induction s1 as [|a s1 IH]; sapp; simpl; [reflexivity|].
  now rewrite IH, andb_assoc.
Qed.

Lemma count_all_zero (p : ascii -> bool) (c : ascii) (s : string) :
  p c = false -> all p s = true -> count c s = 0.
Proof.
  intros Hc. induction s as [|a s IH]; simpl; [reflexivity|].
  intros [Ha Hs]%andb_true_iff.
  destruct (Ascii.eqb_spec a c) as [->|_]; [congruence | auto].
Qed.

Lemma truthy_iff (s : string) : truthy s = true <-> s <> "".
Proof. destruct s; simpl; split; congruence. Qed.

Lemma split_not_nil (c : ascii) (s : string) : split c s <> [].
Proof.
  destruct s as [|a s]; simpl; [discriminate|].
  destruct (Ascii.eqb a c); [discriminate|].
  destruct (split c s); discriminate.
Qed.

Lemma split_no_sep (c : ascii) (x : string) :
  count c x = 0 -> split c x = [x].
Proof.
  induction x as [|a x IH]; simpl; [reflexivity|].
  destruct (Ascii.eqb a c); [discriminate|].
  intros H. now rewrite IH.
Qed.

Lemma split_sep (c : ascii) (x rest : string) :
  count c x = 0 -> split c (x +:+ String c rest) = x :: split c rest.
Proof.
  induction x as [|a x IH]; sapp; simpl.
  - now rewrite Ascii.eqb_refl.
  - destruct (Ascii.eqb a c); [discriminate|].
    intros H. now rewrite IH.
Qed.

(** The pieces hold no separator, and joined by it they give the string
    back. *)
Lemma split_pieces (c : ascii) (s : string) :
  Forall (fun x => count c x = 0) (split c s).
Proof.
  induction s as [|a s IH]; simpl.
  - repeat constructor.
  - destruct (Ascii.eqb a c) eqn:Ea.
    + constructor; [reflexivity | exact IH].
    + destruct (split c s) as [|w ws]; [repeat constructor; simpl; now rewrite Ea|].
      inversion IH; subst. constructor; [simpl; now rewrite Ea | assumption].
Qed.

Lemma split_join (c : ascii) (s : string) :
  String.concat (String c "") (split c s) = s.
Proof.
  induction s as [|a s IH]; simpl; [reflexivity|].
  destruct (Ascii.eqb_spec a c) as [->|_].
  - pose proof (split_not_nil c s) as Hne.
    destruct (split c s) as [|w ws]; [congruence|].
    simpl in *. sapp. now rewrite IH.
  - pose proof (split_not_nil c s) as Hne.
    destruct (split c s) as [|w ws]; [congruence|].
    destruct ws as [|w' ws]; simpl in *; sapp; now rewrite <- IH.
Qed.

End PyStrFacts.

(** ** The matcher decides the language *)

Module RegexFacts.
Import PyStr Regex PyStrFacts.

Lemma nullable_lang (r : re) : nullable r = true <-> lang r "".
Proof.
  split.
  - induction r; simpl; intros H; try discriminate.
    + constructor.
    + apply andb_true_iff in H as [H1 H2].
      change "" with ("" +:+ ""). constructor; auto.
    + apply orb_true_iff in H as [H|H]; [apply lang_alt_l | apply lang_alt_r];
        auto.
    + constructor.
  - intros H. remember "" as s eqn:Es.
    induction H; simpl; try discriminate; auto.
    + apply sapp_eq_nil in Es as [-> ->]. rewrite IHlang1, IHlang2; auto.
    + rewrite IHlang; auto.
    + rewrite IHlang; auto using orb_true_r.
Qed.

(** A non-empty string of [r*] starts with a non-empty string of [r]. *)
Lemma lang_star_cons_inv (r : re) (a : ascii) (s : string) :
  lang (Star r) (String a s) ->
  exists s1 s2, s = s1 +:+ s2 /\ lang r (String a s1) /\ lang (Star r) s2.
Proof.
  intros H. remember (Star r) as r0 eqn:Er. remember (String a s) as s0 eqn:Es.
  revert Er Es. induction H; intros Er Es; try discriminate.
  injection Er as ->.
  destruct s1 as [|b s1]; sapp.
  - auto.
  - injection Es as Hb Hs; subst. eauto.
Qed.

Lemma lang_cat (r1 r2 : re) (s : string) :
  lang (Cat r1 r2) s <-> exists s1 s2, s = s1 +:+ s2 /\ lang r1 s1 /\ lang r2 s2.
Proof.
  split.
  - inversion 1; subst; eauto.
  - intros (s1 & s2 & -> & H1 & H2). now constructor.
Qed.

Lemma deriv_lang (a : ascii) (r : re) (s : string) :
  lang (deriv a r) s <-> lang r (String a s).
Proof.
  revert s. induction r; intros s; simpl.
  - split; inversion 1.
  - split; inversion 1.
  - destruct (p a) eqn:Hp; split; intros H; inversion H; subst.
    + now constructor.
    + constructor.
    + congruence.
  - split.
    + intros H.
      assert (Hcat : lang (Cat (deriv a r1) r2) s -> lang (Cat r1 r2) (String a s)).
      { intros Hc. inversion Hc; subst.
        change (String a (s1 +:+ s2)) with (String a s1 +:+ s2).
        constructor; [apply IHr1|]; assumption. }
      destruct (nullable r1) eqn:Hn; [|auto].
      inversion H; subst; [auto|].
      change (String a s) with ("" +:+ String a s).
      constructor; [apply nullable_lang | apply IHr2]; assumption.
    + intros (s1 & s2 & E & H1 & H2)%lang_cat.
      destruct s1 as [|b s1]; sapp.
      * subst. apply nullable_lang in H1. rewrite H1.
        apply lang_alt_r, IHr2, H2.
      * injection E as <- ->.
        assert (lang (Cat (deriv a r1) r2) (s1 +:+ s2))
          by (constructor; [apply IHr1|]; assumption).
        destruct (nullable r1); [apply lang_alt_l|]; assumption.
  - split; intros H; inversion H; subst;
      [apply lang_alt_l, IHr1 | apply lang_alt_r, IHr2
      | apply lang_alt_l, IHr1 | apply lang_alt_r, IHr2]; assumption.
  - split.
    + intros H. inversion H; subst.
      change (String a (s1 +:+ s2)) with (String a s1 +:+ s2).
      constructor; [apply IHr|]; assumption.
    + intros H. apply lang_star_cons_inv in H as (s1 & s2 & -> & H1 & H2).
      constructor; [apply IHr|]; assumption.
Qed.

Lemma spans_lang (r : re) (s : string) : spans r s = true <-> lang r s.
Proof.
  revert r. induction s as [|a s IH]; intros r; simpl.
  - apply nullable_lang.
  - rewrite IH. apply deriv_lang.
Qed.

Lemma lang_class (p : ascii -> bool) (s : string) :
  lang (Class p) s <-> exists a, s = String a "" /\ p a = true.
Proof.
  split.
  - inversion 1; subst; eauto.
  - intros (a & -> & Ha). now constructor.
Qed.

(** [c+] is a non-empty run of characters of the class [c]. *)
Lemma lang_star_class (p : ascii -> bool) (s : string) :
  lang (Star (Class p)) s <-> all p s = true.
Proof.
  split.
  - intros H. remember (Star (Class p)) as r eqn:Er.
    induction H; try discriminate; [reflexivity|].
    injection Er as ->. apply lang_class in H as (a & -> & Ha). sapp. simpl.
    rewrite Ha, IHlang2 by reflexivity. reflexivity.
  - induction s as [|a s IH]; simpl; [constructor|].
    intros [Ha Hs]%andb_true_iff.
    change (String a s) with (String a "" +:+ s).
    constructor; [now constructor | auto].
Qed.

Lemma lang_plus_class (p : ascii -> bool) (s : string) :
  lang (Plus (Class p)) s <-> s <> "" /\ all p s = true.
Proof.
  unfold Plus. split.
  - intros (s1 & s2 & -> & (a & -> & Ha)%lang_class & H2%lang_star_class)%lang_cat.
    sapp. simpl. split; [discriminate|]. now rewrite Ha, H2.
  - intros [Hne Hall]. destruct s as [|a s]; [congruence|].
    simpl in Hall. apply andb_true_iff in Hall as [Ha Hs].
    change (String a s) with (String a "" +:+ s).
    constructor; [now constructor | now apply lang_star_class].
Qed.

Lemma lang_chr (c : ascii) (s : string) :
  lang (Chr c) s <-> s = String c "".
Proof.
  unfold Chr. rewrite lang_class. split.
  - intros (a & -> & ->%Ascii.eqb_eq). reflexivity.
  - intros ->. exists c. split; [reflexivity | apply Ascii.eqb_refl].
Qed.

Lemma lang_dollar (s : string) :
  lang Dollar s <-> s = "" \/ s = LF.
Proof.
  unfold Dollar. split.
  - intros H. remember (Alt Eps (Chr "010")) as r eqn:Er.
    destruct H; try discriminate; injection Er as -> ->.
    + left. remember Eps as r eqn:Er. destruct H; try discriminate; reflexivity.
    + right. now apply lang_chr.
  - intros [-> | ->]; [apply lang_alt_l; constructor | apply lang_alt_r].
    now apply lang_chr.
Qed.

(** An anchored [match] accepts the strings of the pattern, and those
    followed by one line feed. *)
Lemma py_match_anchored_iff (r : re) (s : string) :
  py_match_anchored r s = true <->
  lang r s \/ exists s', s = s' +:+ LF /\ lang r s'.
Proof.
  unfold py_match_anchored. rewrite spans_lang, lang_cat. split.
  - intros (s1 & s2 & -> & H1 & H2). apply lang_dollar in H2 as [-> | ->].
    + left. now rewrite sapp_nil_r.
    + right; eauto.
  - intros [H | (s' & -> & H)].
    + exists s, "". rewrite sapp_nil_r. repeat split; auto.
      apply lang_dollar; auto.
    + exists s', LF. repeat split; auto.
      apply lang_dollar; auto.
Qed.

End RegexFacts.

(** ** Documents *)

Module JsonFacts.
Import Json.

(** Induction on a document, with the hypothesis at every element of an
    array and at every member of an object. *)
Definition json_ind (P : json -> Prop)
    (HNull : P JNull)
    (HBool : forall b, P (JBool b))
    (HNumber : forall q, P (JNumber q))
    (HString : forall s, P (JString s))
    (HArray : forall items, Forall P items -> P (JArray items))
    (HObject : forall members,
        Forall (fun m => P (snd m)) members -> P (JObject members))
  : forall v, P v :=
  fix go (v : json) : P v :=
    match v with
    | JNull => HNull
    | JBool b => HBool b
    | JNumber q => HNumber q
    | JString s => HString s
    | JArray items =>
        HArray items
          ((fix all (l : list json) : Forall P l :=
              match l with
              | [] => List.Forall_nil P
              | x :: l' => List.Forall_cons P x l' (go x) (all l')
              end) items)
    | JObject members =>
        HObject members
          ((fix all (l : list (string * json))
              : Forall (fun m => P (snd m)) l :=
              match l with
              | [] => List.Forall_nil _
              | m :: l' => List.Forall_cons _ m l' (go (snd m)) (all l')
              end) members)
    end.

Lemma find_app {A : Type} (p : A -> bool) (l1 l2 : list A) :
  find p (l1 ++ l2) =
  match find p l1 with Some x => Some x | None => find p l2 end.
Proof.
  induction l1 as [|x l1 IH]; simpl; [reflexivity|].
  destruct (p x); [reflexivity | exact IH].
Qed.

(** The early-return loop over the parts of a document finds what [find]
    finds in the strings of the parts laid end to end. *)
Lemma first_true_find {A : Type} (f : A -> option string)
    (g : A -> list string) (p : string -> bool) (xs : list A) :
  (forall s, p s = true -> PyStr.truthy s = true) ->
  Forall (fun x => f x = find p (g x)) xs ->
  first_true f xs = find p (concat (map g xs)).
Proof.
  intros Hp Hxs. induction Hxs as [|x xs Hx _ IH]; simpl; [reflexivity|].
  rewrite find_app, Hx.
  destruct (find p (g x)) as [s|] eqn:Es; simpl.
  - apply find_some in Es as [_ Hs]. now rewrite (Hp s Hs).
  - exact IH.
Qed.

Lemma dict_get_In (k : string) (members : list (string * json)) (v : json) :
  dict_get k members = Some v -> In (k, v) members.
Proof.
  induction members as [|[k' v'] rest IH]; simpl; [discriminate|].
  destruct (String.eqb_spec k k') as [->|_].
  - intros [= ->]. now left.
  - intros H. right. auto.
Qed.

(** The strings of a member are strings of the object. *)
Lemma strings_of_member (k : string) (v : json)
    (members : list (string * json)) (s : string) :
  In (k, v) members -> In s (strings_of v) -> In s (strings_of (JObject members)).
Proof.
  intros Hm Hs. simpl. apply in_concat. exists (strings_of v). split; [|exact Hs].
  apply in_map_iff. exists (k, v). auto.
Qed.

End JsonFacts.

(** ** Credential extraction *)

Module BrokerFacts.
Import PyStr Json Regex Broker PyStrFacts RegexFacts JsonFacts.

Lemma lang_segment (x : string) :
  lang segment x <-> spec_segment x = true.
Proof.
  unfold segment, spec_segment. rewrite lang_plus_class, andb_true_iff.
  now rewrite PyStrFacts.truthy_iff.
Qed.

Lemma segment_no_dot (x : string) : spec_segment x = true -> count "." x = 0.
Proof.
  unfold spec_segment. intros [_ H]%andb_true_iff.
  now apply (count_all_zero b64url).
Qed.

(** The body of the pattern denotes exactly the specification's shape. *)
Lemma jwt_body_shape (s : string) :
  lang jwt_body s <-> spec_token_shape s = true.
Proof.
  unfold jwt_body, spec_token_shape. split.
  - intros (a & s1 & -> & Ha%lang_segment & H1)%lang_cat.
    apply lang_cat in H1 as (d1 & s2 & -> & ->%lang_chr & H2).
    apply lang_cat in H2 as (b & s3 & -> & Hb%lang_segment & H3).
    apply lang_cat in H3 as (d2 & c & -> & ->%lang_chr & Hc%lang_segment).
    sapp. rewrite split_sep by now apply segment_no_dot.
    rewrite split_sep by now apply segment_no_dot.
    rewrite split_no_sep by now apply segment_no_dot.
    now rewrite Ha, Hb, Hc.
  - pose proof (split_join "." s) as Hj.
    destruct (split "." s) as [|a [|b [|c [|]]]]; try discriminate.
    intros [[Ha Hb]%andb_true_iff Hc]%andb_true_iff.
    rewrite <- Hj. simpl. sapp.
    apply lang_cat. exists a, ("." +:+ b +:+ "." +:+ c).
    split; [reflexivity|]. split; [now apply lang_segment|].
    change ("." +:+ b +:+ "." +:+ c) with (String "." "" +:+ (b +:+ "." +:+ c)).
    constructor; [now apply lang_chr|].
    constructor; [now apply lang_segment|].
    change ("." +:+ c) with (String "." "" +:+ c).
    constructor; [now apply lang_chr | now apply lang_segment].
Qed.

(** What [jwt_re.match] accepts: the shape, and the shape followed by one
    line feed. *)
Lemma jwt_re_match_iff (s : string) :
  jwt_re_match s = true <->
  spec_token_shape s = true \/
  exists s', s = s' +:+ LF /\ spec_token_shape s' = true.
Proof.
  unfold jwt_re_match. rewrite py_match_anchored_iff, jwt_body_shape.
  split; (intros [H | (s' & -> & H)]; [now left | right; exists s']);
    (split; [reflexivity|]); now apply jwt_body_shape.
Qed.

Lemma shape_two_dots (s : string) :
  spec_token_shape s = true -> count "." s = 2.
Proof.
  unfold spec_token_shape. pose proof (split_join "." s) as Hj.
  destruct (split "." s) as [|a [|b [|c [|]]]]; try discriminate.
  intros [[Ha Hb]%andb_true_iff Hc]%andb_true_iff.
  rewrite <- Hj. simpl. rewrite !count_app.
  rewrite (segment_no_dot a), (segment_no_dot b), (segment_no_dot c)
    by assumption.
  reflexivity.
Qed.

(** Whatever the fallback pattern accepts has exactly two periods. *)
Lemma jwt_re_match_two_dots (s : string) :
  jwt_re_match s = true -> two_dots s = true.
Proof.
  unfold two_dots. intros [H | (s' & -> & H)]%jwt_re_match_iff.
  - now rewrite shape_two_dots.
  - rewrite count_app, shape_two_dots by assumption. reflexivity.
Qed.

Lemma two_dots_truthy (s : string) : two_dots s = true -> PyStr.truthy s = true.
Proof. destruct s; [discriminate | reflexivity]. Qed.

Lemma jwt_re_match_truthy (s : string) :
  jwt_re_match s = true -> PyStr.truthy s = true.
Proof. intros H. now apply two_dots_truthy, jwt_re_match_two_dots. Qed.

Lemma is_wss_truthy (s : string) : is_wss s = true -> PyStr.truthy s = true.
Proof. destruct s; [discriminate | reflexivity]. Qed.

(** The recursive scans return the first string value of the document, in
    depth-first document order, that passes their test. *)
Lemma _find_first_jwt_find (obj : json) :
  _find_first_jwt obj = find jwt_re_match (strings_of obj).
Proof.
  induction obj as [| | |s|items IH|members IH] using json_ind; simpl;
    try reflexivity.
  - now apply first_true_find; [apply jwt_re_match_truthy|].
  - now apply (first_true_find _ (fun m => strings_of (snd m)));
      [apply jwt_re_match_truthy|].
Qed.

Lemma _find_first_wss_find (obj : json) :
  _find_first_wss obj = find is_wss (strings_of obj).
Proof.
  induction obj as [| | |s|items IH|members IH] using json_ind; simpl;
    try reflexivity.
  - now apply first_true_find; [apply is_wss_truthy|].
  - now apply (first_true_find _ (fun m => strings_of (snd m)));
      [apply is_wss_truthy|].
Qed.

(** A path lookup only ever returns a part of the document. *)
Lemma walk_strings (parts : list string) (cur : json) (s : string) :
  In s (strings_of (walk cur parts)) -> In s (strings_of cur).
Proof.
  revert cur. induction parts as [|p rest IH]; intros cur; simpl; [auto|].
  destruct cur as [| | | | |members]; try (simpl; tauto).
  destruct (dict_get p members) as [v|] eqn:Ev; [|simpl; tauto].
  intros H. apply (strings_of_member p v); [now apply dict_get_In | auto].
Qed.

Lemma get_by_path_string (obj : json) (path s : string) :
  _get_by_path obj path = JString s -> In s (strings_of obj).
Proof.
  unfold _get_by_path. intros H. apply (walk_strings (split "." path)).
  rewrite H. now left.
Qed.

(** The value a path loop would accept at path [p]. *)
Definition accepted (ok : string -> bool) (join_data : json) (p : string)
  : option string :=
  match _get_by_path join_data p with
  | JString s => if ok s then Some s else None
  | _ => None
  end.

(** The path loop stops at the first path, in list order, whose value is a
    string passing the test, and keeps that value. *)
Lemma first_on_paths_Some (ok : string -> bool) (join_data : json)
    (paths : list string) (t : string) :
  first_on_paths ok join_data paths = Some t <->
  exists before p after,
    paths = before ++ p :: after /\
    Forall (fun p' => accepted ok join_data p' = None) before /\
    accepted ok join_data p = Some t.
Proof.
  unfold accepted. induction paths as [|p rest IH]; simpl.
  - split; [discriminate|]. intros (before & p & after & E & _).
    destruct before; discriminate.
  - split.
    + intros H.
      destruct (_get_by_path join_data p) as [| | |s| |] eqn:Ep;
        try (apply IH in H as (before & p' & after & -> & Hb & Hp);
             exists (p :: before), p', after; repeat split; auto;
             constructor; [now rewrite Ep | assumption]).
      destruct (ok s) eqn:Es.
      * injection H as ->. exists [], p, rest. rewrite Ep, Es. auto.
      * apply IH in H as (before & p' & after & -> & Hb & Hp).
        exists (p :: before), p', after. repeat split; auto.
        constructor; [now rewrite Ep, Es | assumption].
    + intros (before & p' & after & E & Hb & Hp).
      destruct before as [|p0 before]; simpl in E; injection E as <- ->.
      * destruct (_get_by_path join_data p) as [| | |s| |]; try discriminate.
        destruct (ok s); [assumption | discriminate].
      * inversion Hb as [|? ? H0 Hb']; subst.
        assert (first_on_paths ok join_data (before ++ p' :: after) = Some t)
          by (apply IH; exists before, p', after; auto).
        destruct (_get_by_path join_data p) as [| | |s| |]; try assumption.
        destruct (ok s); [discriminate | assumption].
Qed.

Lemma first_on_paths_None (ok : string -> bool) (join_data : json)
    (paths : list string) :
  first_on_paths ok join_data paths = None <->
  Forall (fun p => accepted ok join_data p = None) paths.
Proof.
  unfold accepted. induction paths as [|p rest IH]; simpl.
  - split; [constructor | reflexivity].
  - split.
    + intros H. constructor.
      * destruct (_get_by_path join_data p) as [| | |s| |]; try reflexivity.
        destruct (ok s); [discriminate | reflexivity].
      * apply IH.
        destruct (_get_by_path join_data p) as [| | |s| |]; try assumption.
        destruct (ok s); [discriminate | assumption].
    + intros H. inversion H as [|? ? Hp Hrest]; subst. apply IH in Hrest.
      destruct (_get_by_path join_data p) as [| | |s| |]; try assumption.
      destruct (ok s); [discriminate | assumption].
Qed.

Lemma first_on_paths_ok (ok : string -> bool) (join_data : json)
    (paths : list string) (t : string) :
  first_on_paths ok join_data paths = Some t ->
  ok t = true /\ In t (strings_of join_data).
Proof.
  intros (before & p & after & _ & _ & H)%first_on_paths_Some.
  unfold accepted in H.
  destruct (_get_by_path join_data p) as [| | |s| |] eqn:Ep; try discriminate.
  destruct (ok s) eqn:Es; [|discriminate]. injection H as <-.
  split; [assumption | now apply (get_by_path_string _ p)].
Qed.

(** [extract_livekit_creds], pass by pass: the path hit when there is one,
    the scan otherwise. *)
Lemma extract_token (join_data : json) :
  fst (extract_livekit_creds join_data) =
  match token_by_paths join_data with
  | Some t => Some t
  | None => _find_first_jwt join_data
  end.
Proof.
  unfold extract_livekit_creds. simpl.
  destruct (token_by_paths join_data) as [t|] eqn:Et; [|reflexivity].
  apply first_on_paths_ok in Et as [Ht%two_dots_truthy _]. simpl.
  now rewrite Ht.
Qed.

Lemma extract_url (join_data : json) :
  snd (extract_livekit_creds join_data) =
  match url_by_paths join_data with
  | Some u => Some u
  | None => _find_first_wss join_data
  end.
Proof.
  unfold extract_livekit_creds. simpl.
  destruct (url_by_paths join_data) as [u|] eqn:Eu; [|reflexivity].
  apply first_on_paths_ok in Eu as [Hu%is_wss_truthy _]. simpl.
  now rewrite Hu.
Qed.

End BrokerFacts.

(** ** What the extraction promises *)

Module ExtractionSpec.
Import PyStr Json Regex Broker PyStrFacts RegexFacts JsonFacts BrokerFacts.

(** The join reply of the specification's first example. *)
Definition room_payload : json :=
  JObject [("room", JObject [("token", JString "a.b.c");
                             ("url", JString "wss://x")])].

(** A reply with no prioritized key, the credentials three levels down. *)
Definition buried_payload : json :=
  JObject [("data",
     JObject [("session",
        JArray [JObject [("credential", JString "eyJ.eyJ.eyJ");
                         ("server", JString "wss://fallback")]])])].

(** A reply whose first string has the shape but for a final line feed. *)
Definition newline_payload : json :=
  JObject [("data",
     JObject [("note", JString ("a.b.c" +:+ LF));
              ("credential", JString "eyJ.eyJ.eyJ")])].

Definition loose_payload : json := JObject [("token", JString "a..b")].

Definition foreign_payload : json := JObject [("jwt", JString "a b.c!.d")].

(** The dotted paths, cut at the periods, are the key sequences walked. *)
Lemma token_paths_keys :
  map (split ".") token_paths =
  [["room"; "token"]; ["room"; "accessToken"]; ["room"; "jwt"];
   ["roomToken"]; ["roomJWT"]; ["token"]; ["accessToken"]; ["jwt"]].
Proof. reflexivity. Qed.

Lemma url_paths_keys :
  map (split ".") url_paths =
  [["endpoint"]; ["room"; "url"]; ["room"; "serverUrl"]; ["room"; "wss"];
   ["wss"]; ["wssUrl"]; ["wsUrl"]; ["url"]].
Proof. reflexivity. Qed.

(** A two-key path reads the member of the member. *)
Lemma get_by_path_nested (outer inner : list (string * json)) (v : json)
    (k1 k2 : string) :
  count "." k1 = 0 -> count "." k2 = 0 ->
  dict_get k1 outer = Some (JObject inner) -> dict_get k2 inner = Some v ->
  _get_by_path (JObject outer) (k1 +:+ "." +:+ k2) = v.
Proof.
  intros H1 H2 Hk1 Hk2. unfold _get_by_path.
  change ("." +:+ k2) with (String "." k2).
  rewrite split_sep, split_no_sep by assumption. simpl.
  now rewrite Hk1, Hk2.
Qed.

(** The path pass picks the value of the first listed path that qualifies. *)
Lemma path_pass_first (ok : string -> bool) (join_data : json)
    (paths before after : list string) (p t : string) :
  paths = before ++ p :: after ->
  Forall (fun p' => forall s, _get_by_path join_data p' = JString s ->
                              ok s = false) before ->
  _get_by_path join_data p = JString t -> ok t = true ->
  first_on_paths ok join_data paths = Some t.
Proof.
  intros E Hb Hp Ht. apply first_on_paths_Some.
  exists before, p, after. split; [exact E|]. split.
  - eapply Forall_impl; [exact Hb|]. intros p' Hp'. unfold accepted.
    simpl in Hp'.
    destruct (_get_by_path join_data p') as [| | |s| |] eqn:Eg;
      try reflexivity.
    now rewrite (Hp' s eq_refl).
  - unfold accepted. now rewrite Hp, Ht.
Qed.

(** C1.  Whatever the join reply, the token is looked up on the key paths
    room.token, room.accessToken, room.jwt, roomToken, roomJWT, token,
    accessToken, jwt in this order, and the first value that is a string with
    exactly two periods is the token returned; the URL is looked up on
    endpoint, room.url, room.serverUrl, room.wss, wss, wssUrl, wsUrl, url in
    this order, and the first value that is a string starting with "wss://"
    is the URL returned.  For the reply {"room": {"token": "a.b.c", "url":
    "wss://x"}} both come from the path pass: token "a.b.c", URL
    "wss://x". *)
Theorem extraction_prefers_paths (join_data : json) :
  (forall before p after t,
      ["room.token"; "room.accessToken"; "room.jwt"; "roomToken"; "roomJWT";
       "token"; "accessToken"; "jwt"] = before ++ p :: after ->
      Forall (fun p' => forall s, _get_by_path join_data p' = JString s ->
                                  count "." s <> 2) before ->
      _get_by_path join_data p = JString t -> count "." t = 2 ->
      token_by_paths join_data = Some t /\
      fst (extract_livekit_creds join_data) = Some t) /\
  (forall before p after u,
      ["endpoint"; "room.url"; "room.serverUrl"; "room.wss"; "wss"; "wssUrl";
       "wsUrl"; "url"] = before ++ p :: after ->
      Forall (fun p' => forall s, _get_by_path join_data p' = JString s ->
                                  startswith "wss://" s = false) before ->
      _get_by_path join_data p = JString u -> startswith "wss://" u = true ->
      url_by_paths join_data = Some u /\
      snd (extract_livekit_creds join_data) = Some u) /\
  token_by_paths room_payload = Some "a.b.c" /\
  url_by_paths room_payload = Some "wss://x" /\
  extract_livekit_creds room_payload = (Some "a.b.c", Some "wss://x").
Proof.
  split; [|split; [|repeat split]].
  - intros before p after t E Hb Hp Ht.
    assert (Hpass : token_by_paths join_data = Some t).
    { apply (path_pass_first two_dots join_data _ before after p t);
        [exact E | | exact Hp | unfold two_dots; now rewrite Ht].
      eapply Forall_impl; [exact Hb|]. intros p' Hp' s Hs. unfold two_dots.
      apply Nat.eqb_neq. eauto. }
    split; [exact Hpass|]. now rewrite extract_token, Hpass.
  - intros before p after u E Hb Hp Hu.
    assert (Hpass : url_by_paths join_data = Some u).
    { now apply (path_pass_first is_wss join_data _ before after p u). }
    split; [exact Hpass|]. now rewrite extract_url, Hpass.
Qed.

Lemma extraction_prefers_paths_witness :
  (token_by_paths room_payload = Some "a.b.c" /\
   fst (extract_livekit_creds room_payload) = Some "a.b.c") /\
  (url_by_paths room_payload = Some "wss://x" /\
   snd (extract_livekit_creds room_payload) = Some "wss://x").
Proof.
  destruct (extraction_prefers_paths room_payload) as (Htok & Hurl & _).
  split.
  - apply (Htok [] "room.token"
             ["room.accessToken"; "room.jwt"; "roomToken"; "roomJWT"; "token";
              "accessToken"; "jwt"] "a.b.c");
      [reflexivity | constructor | reflexivity | reflexivity].
  - apply (Hurl ["endpoint"] "room.url"
             ["room.serverUrl"; "room.wss"; "wss"; "wssUrl"; "wsUrl"; "url"]
             "wss://x"); [reflexivity | | reflexivity | reflexivity].
    constructor; [|constructor]. intros s Hs. discriminate Hs.
Defined.

(** When the path pass finds no token, the token returned is the first
    string value of the reply, depth first in document order, that
    [jwt_re] matches; likewise for the URL and the prefix test. *)
Lemma fallback_token (join_data : json) :
  token_by_paths join_data = None ->
  fst (extract_livekit_creds join_data) =
  find jwt_re_match (strings_of join_data).
Proof.
  intros H. now rewrite extract_token, H, _find_first_jwt_find.
Qed.

Lemma fallback_url (join_data : json) :
  url_by_paths join_data = None ->
  snd (extract_livekit_creds join_data) =
  find (startswith "wss://") (strings_of join_data).
Proof.
  intros H. now rewrite extract_url, H, _find_first_wss_find.
Qed.

Lemma fallback_example :
  token_by_paths buried_payload = None /\
  url_by_paths buried_payload = None /\
  extract_livekit_creds buried_payload =
  (Some "eyJ.eyJ.eyJ", Some "wss://fallback").
Proof. repeat split. Qed.

Lemma find_ext_in {A : Type} (p q : A -> bool) (l : list A) :
  (forall x, In x l -> p x = q x) -> find p l = find q l.
Proof.
  induction l as [|x l IH]; simpl; [reflexivity|]. intros H.
  rewrite (H x) by now left. destruct (q x); [reflexivity|].
  apply IH. intros y Hy. apply H. now right.
Qed.

(** On a string that holds no line feed the pattern and the specification's
    shape agree. *)
Lemma jwt_re_match_no_newline (s : string) :
  count "010" s = 0 -> jwt_re_match s = spec_token_shape s.
Proof.
  intros Hs. destruct (jwt_re_match s) eqn:Em.
  - apply jwt_re_match_iff in Em as [H | (s' & -> & _)]; [now rewrite H|].
    rewrite count_app in Hs. simpl in Hs. lia.
  - destruct (spec_token_shape s) eqn:Eshape; [|reflexivity].
    assert (jwt_re_match s = true) by (apply jwt_re_match_iff; now left).
    congruence.
Qed.

(** So on a reply whose strings hold no line feed the scan returns the first
    string of the specification's shape. *)
Lemma fallback_token_no_newline (join_data : json) :
  token_by_paths join_data = None ->
  (forall s, In s (strings_of join_data) -> count "010" s = 0) ->
  fst (extract_livekit_creds join_data) =
  find spec_token_shape (strings_of join_data).
Proof.
  intros Hp Hs. rewrite fallback_token by assumption.
  apply find_ext_in. intros s H. now apply jwt_re_match_no_newline, Hs.
Qed.

(** C2, at the reply [newline_payload].  No key path gives a token, so the
    scan decides.  Its first string "a.b.c\n" is not three segments of
    URL-safe base64 characters joined by periods; the first string that is,
    is "eyJ.eyJ.eyJ"; the scan returns "a.b.c\n". *)
Theorem fallback_takes_trailing_newline :
  token_by_paths newline_payload = None /\
  strings_of newline_payload = ["a.b.c" +:+ LF; "eyJ.eyJ.eyJ"] /\
  spec_token_shape ("a.b.c" +:+ LF) = false /\
  find spec_token_shape (strings_of newline_payload) = Some "eyJ.eyJ.eyJ" /\
  fst (extract_livekit_creds newline_payload) = Some ("a.b.c" +:+ LF).
Proof. repeat split. Qed.

(** C10.  The two passes test the shape of a token differently.  The path
    pass takes "a..b" (an empty middle segment) and "a b.c!.d" (characters
    outside the alphabet), each having exactly two periods; the pattern of
    the scan rejects both, and accepts nothing but three non-empty segments
    of URL-safe base64 characters joined by periods, a final line feed
    apart. *)
Theorem path_test_is_weaker_than_scan_test :
  (token_by_paths loose_payload = Some "a..b" /\
   extract_livekit_creds loose_payload = (Some "a..b", None) /\
   count "." "a..b" = 2 /\
   jwt_re_match "a..b" = false /\
   _find_first_jwt loose_payload = None) /\
  (token_by_paths foreign_payload = Some "a b.c!.d" /\
   extract_livekit_creds foreign_payload = (Some "a b.c!.d", None) /\
   count "." "a b.c!.d" = 2 /\
   jwt_re_match "a b.c!.d" = false /\
   _find_first_jwt foreign_payload = None) /\
  (forall s, jwt_re_match s = true ->
     exists a b c,
       (s = a +:+ "." +:+ b +:+ "." +:+ c \/
        s = (a +:+ "." +:+ b +:+ "." +:+ c) +:+ LF) /\
       a <> "" /\ b <> "" /\ c <> "" /\
       all b64url a = true /\ all b64url b = true /\ all b64url c = true).
Proof.
  split; [repeat split|split; [repeat split|]].
  intros s Hs.
  assert (Hshape : forall x, spec_token_shape x = true ->
            exists a b c, x = a +:+ "." +:+ b +:+ "." +:+ c /\
              a <> "" /\ b <> "" /\ c <> "" /\
              all b64url a = true /\ all b64url b = true /\
              all b64url c = true).
  { intros x. unfold spec_token_shape, spec_segment.
    pose proof (split_join "." x) as Hj.
    destruct (split "." x) as [|a [|b [|c [|]]]]; try discriminate.
    intros [[[Ha Ha']%andb_true_iff [Hb Hb']%andb_true_iff]%andb_true_iff
            [Hc Hc']%andb_true_iff]%andb_true_iff.
    exists a, b, c. rewrite <- Hj.
    repeat split; try assumption; now apply PyStrFacts.truthy_iff. }
  apply jwt_re_match_iff in Hs as [H | (s' & -> & H)];
    apply Hshape in H as (a & b & c & -> & Hrest); exists a, b, c; auto.
Qed.

Lemma path_test_is_weaker_than_scan_test_witness :
  exists a b c,
    ("eyJ.eyJ.eyJ" = a +:+ "." +:+ b +:+ "." +:+ c \/
     "eyJ.eyJ.eyJ" = (a +:+ "." +:+ b +:+ "." +:+ c) +:+ LF) /\
    a <> "" /\ b <> "" /\ c <> "" /\
    all b64url a = true /\ all b64url b = true /\ all b64url c = true.
Proof.
  destruct path_test_is_weaker_than_scan_test as (_ & _ & H).
  apply (H "eyJ.eyJ.eyJ"). reflexivity.
Defined.

End ExtractionSpec.

(** ** What [start_session] promises *)

Module SessionSpec.
Import PyStr Json Broker PyStrFacts JsonFacts BrokerFacts.

Lemma find_none_all {A : Type} (p : A -> bool) (l : list A) :
  (forall x, In x l -> p x = false) -> find p l = None.
Proof.
  induction l as [|x l IH]; simpl; [reflexivity|]. intros H.
  rewrite (H x) by now left. apply IH. intros y Hy. apply H. now right.
Qed.

(** Whenever either credential is missing the handler answers with the
    error that carries the join reply. *)
Lemma partial_credentials_rejected (session_id join_data : json) :
  fst (extract_livekit_creds join_data) = None \/
  snd (extract_livekit_creds join_data) = None ->
  answer_from_join session_id join_data =
  ErrorResponse 500 CredentialsNotFound (Some join_data).
Proof.
  unfold answer_from_join.
  destruct (extract_livekit_creds join_data) as [[t|] [u|]]; simpl;
    intros [H|H]; try discriminate; reflexivity.
Qed.

(** C3.  A join reply that holds no string with exactly two periods (the
    three-part dot-delimited shape) and no string starting with "wss://"
    yields neither a token nor a URL, and the handler answers with the
    credentials-not-found error, status 500, carrying the join reply; no
    credential is returned. *)
Theorem no_credentials_is_an_error (session_id join_data : json) :
  (forall s, In s (strings_of join_data) -> count "." s <> 2) ->
  (forall s, In s (strings_of join_data) -> startswith "wss://" s = false) ->
  extract_livekit_creds join_data = (None, None) /\
  answer_from_join session_id join_data =
  ErrorResponse 500 CredentialsNotFound (Some join_data).
Proof.
  intros Hdots Hwss.
  assert (Htp : token_by_paths join_data = None).
  { apply first_on_paths_None, Forall_forall. intros p _. unfold accepted.
    destruct (_get_by_path join_data p) as [| | |s| |] eqn:Ep;
      try reflexivity.
    apply get_by_path_string in Ep. unfold two_dots.
    now rewrite (proj2 (Nat.eqb_neq _ _) (Hdots s Ep)). }
  assert (Hup : url_by_paths join_data = None).
  { apply first_on_paths_None, Forall_forall. intros p _. unfold accepted.
    destruct (_get_by_path join_data p) as [| | |s| |] eqn:Ep;
      try reflexivity.
    apply get_by_path_string in Ep. unfold is_wss. now rewrite (Hwss s Ep). }
  assert (Htok : fst (extract_livekit_creds join_data) = None).
  { rewrite extract_token, Htp, _find_first_jwt_find. apply find_none_all.
    intros s Hs. destruct (jwt_re_match s) eqn:Em; [|reflexivity].
    apply jwt_re_match_two_dots, Nat.eqb_eq in Em. now apply Hdots in Hs. }
  assert (Hurl : snd (extract_livekit_creds join_data) = None).
  { rewrite extract_url, Hup, _find_first_wss_find. now apply find_none_all. }
  split.
  - destruct (extract_livekit_creds join_data); simpl in *; congruence.
  - apply partial_credentials_rejected. now left.
Qed.

Lemma no_credentials_is_an_error_witness :
  extract_livekit_creds (JObject [("status", JString "a.b")]) = (None, None) /\
  answer_from_join (JString "sid") (JObject [("status", JString "a.b")]) =
  ErrorResponse 500 CredentialsNotFound
    (Some (JObject [("status", JString "a.b")])).
Proof.
  apply (no_credentials_is_an_error (JString "sid")
           (JObject [("status", JString "a.b")])).
  - intros s [<- | []]. simpl. lia.
  - intros s [<- | []]. reflexivity.
Defined.


Lemma str_or_truthy (a b : string) : PyStr.truthy a = true -> str_or a b = a.
Proof. unfold str_or. now intros ->. Qed.

Lemma str_or_empty (a : string) : str_or a "" = a.
Proof. now destruct a. Qed.

Definition is_error (r : session_response) : Prop :=
  match r with ErrorResponse _ _ _ => True | Credentials _ _ _ => False end.

Lemma handle_raised_is_error (e : exn) : is_error (handle (Raised e)).
Proof. now destruct e. Qed.

Lemma answer_from_join_credentials (sid join_data : json) :
  ~ is_error (answer_from_join sid join_data) ->
  exists u t, answer_from_join sid join_data = Credentials sid u t /\
              extract_livekit_creds join_data = (Some t, Some u).
Proof.
  unfold answer_from_join.
  destruct (extract_livekit_creds join_data) as [[t|] [u|]]; simpl;
    try tauto.
  destruct (PyStr.truthy t), (PyStr.truthy u); simpl; try tauto.
  intros _. eauto.
Qed.

Section SessionTrace.

Variables BOOTSTRAP_URL_TEMPLATE AGENT_ID DOMAIN_URL SALESFORCE_ENDPOINT
  : string.
Variable str_format : string -> string -> option string.
Variable py_repr : json -> string.
Variable upstream : nat -> http_request -> http_reply.

(** The three requests of the protocol, for the settings in force. *)
Definition bootstrap_request (url domain_url : string) : http_request :=
  {| http_verb := GET; http_url := url;
     http_origin := str_or (str_or domain_url DOMAIN_URL) "";
     http_authorization := None |}.

Definition create_request (agent_id salesforce_endpoint domain_url : string)
    (access_token : json) : http_request :=
  {| http_verb := POST;
     http_url := salesforce_endpoint +:+ "/einstein/ai-agent/v1.1/agents/"
                 +:+ agent_id +:+ "/sessions";
     http_origin := str_or (str_or domain_url DOMAIN_URL) "";
     http_authorization :=
       Some ("Bearer " +:+ py_str py_repr access_token) |}.

Definition join_request (salesforce_endpoint domain_url : string)
    (access_token session_id : json) : http_request :=
  {| http_verb := POST;
     http_url := salesforce_endpoint
                 +:+ "/einstein/ai-agent/v1.1/realtime/sessions/"
                 +:+ py_str py_repr session_id +:+ "/join";
     http_origin := str_or (str_or domain_url DOMAIN_URL) "";
     http_authorization :=
       Some ("Bearer " +:+ py_str py_repr access_token) |}.

(** What the handler makes of a bootstrap reply: the access token it goes
    on with, or the answer it stops with. *)
Definition access_token_in (token_data : json) : session_response + json :=
  match py_get token_data "access_token" with
  | Raised e => inl (handle (Raised e))
  | Done snake =>
      match (if truthy snake then Done snake
             else py_get token_data "accessToken") with
      | Raised e => inl (handle (Raised e))
      | Done access_token =>
          if negb (truthy access_token)
          then inl (ErrorResponse 500 AccessTokenNotFound None)
          else if sliceable access_token then inr access_token
               else inl (handle (Raised TypeError))
      end
  end.

(** What the handler makes of a create reply: the session id, or the answer
    it stops with. *)
Definition session_id_in (session_data : json) : session_response + json :=
  match py_get session_data "sessionId" with
  | Raised e => inl (handle (Raised e))
  | Done session_id =>
      if negb (truthy session_id)
      then inl (ErrorResponse 500 SessionIdNotFound None)
      else inr session_id
  end.

Lemma access_token_in_error (token_data : json) (r : session_response) :
  access_token_in token_data = inl r -> is_error r.
Proof.
  unfold access_token_in.
  destruct (py_get token_data "access_token") as [snake|e];
    [|intros [= <-]; apply handle_raised_is_error].
  destruct (if truthy snake then Done snake
            else py_get token_data "accessToken") as [tok|e];
    [|intros [= <-]; apply handle_raised_is_error].
  destruct (truthy tok); simpl; [|intros [= <-]; exact I].
  destruct (sliceable tok); [discriminate | intros [= <-]; exact I].
Qed.

Lemma session_id_in_error (session_data : json) (r : session_response) :
  session_id_in session_data = inl r -> is_error r.
Proof.
  unfold session_id_in.
  destruct (py_get session_data "sessionId") as [sid|e];
    [|intros [= <-]; apply handle_raised_is_error].
  destruct (truthy sid); simpl; [discriminate | intros [= <-]; exact I].
Qed.

Lemma session_id_in_truthy (session_data sid : json) :
  session_id_in session_data = inr sid ->
  py_get session_data "sessionId" = Done sid /\ truthy sid = true.
Proof.
  unfold session_id_in.
  destruct (py_get session_data "sessionId") as [v|e]; [|discriminate].
  destruct (truthy v) eqn:Ev; simpl; [|discriminate].
  intros [= <-]. auto.
Qed.

(** The run of the [try] block laid out by cases on what upstream replies:
    the outcome and the requests sent, oldest first. *)
Definition laid_out (url agent_id domain_url salesforce_endpoint : string)
  : session_response * list http_request :=
  let b := bootstrap_request url domain_url in
  match upstream 0 b with
  | Failed e => (handle (Raised e), [b])
  | Replied token_data =>
      match access_token_in token_data with
      | inl r => (r, [b])
      | inr tok =>
          let c := create_request agent_id salesforce_endpoint domain_url tok
          in
          match upstream 1 c with
          | Failed e => (handle (Raised e), [b; c])
          | Replied session_data =>
              match session_id_in session_data with
              | inl r => (r, [b; c])
              | inr sid =>
                  let j := join_request salesforce_endpoint domain_url tok sid
                  in
                  (match upstream 2 j with
                   | Failed e => handle (Raised e)
                   | Replied join_data => answer_from_join sid join_data
                   end, [b; c; j])
              end
          end
      end
  end.

Lemma session_steps_laid_out
    (bootstrap_url agent_id domain_url salesforce_endpoint url : string) :
  PyStr.truthy bootstrap_url = true -> PyStr.truthy agent_id = true ->
  PyStr.truthy salesforce_endpoint = true ->
  str_format bootstrap_url agent_id = Some url ->
  (let (o, log) :=
     session_steps BOOTSTRAP_URL_TEMPLATE AGENT_ID DOMAIN_URL
       SALESFORCE_ENDPOINT str_format py_repr upstream
       bootstrap_url agent_id domain_url salesforce_endpoint [] in
   (handle o, log)) =
  laid_out url agent_id domain_url salesforce_endpoint.
Proof.
  intros Hb Ha He Hf.
  unfold session_steps, get_bootstrap_token, create_session,
    join_realtime_session, laid_out, access_token_in, session_id_in,
    bootstrap_request, create_request, join_request.
  rewrite !(str_or_truthy bootstrap_url), !(str_or_truthy agent_id),
    !(str_or_truthy salesforce_endpoint) by assumption.
  rewrite Hb, Ha, He, Hf. simpl.
  unfold bind, send, lift, ret, raise. simpl.
  destruct (upstream 0 _) as [token_data|e]; [|reflexivity].
  destruct (py_get token_data "access_token") as [snake|e]; [|reflexivity].
  destruct (truthy snake) eqn:Esnake.
  - rewrite Esnake. simpl.
    destruct (sliceable snake); simpl; [|reflexivity].
    destruct (upstream 1 _) as [session_data|e]; [|reflexivity].
    destruct (py_get session_data "sessionId") as [sid|e]; [|reflexivity].
    destruct (truthy sid); simpl; [|reflexivity].
    now destruct (upstream 2 _).
  - destruct (py_get token_data "accessToken") as [camel|e]; [|reflexivity].
    destruct (truthy camel); simpl; [|reflexivity].
    destruct (sliceable camel); simpl; [|reflexivity].
    destruct (upstream 1 _) as [session_data|e]; [|reflexivity].
    destruct (py_get session_data "sessionId") as [sid|e]; [|reflexivity].
    destruct (truthy sid); simpl; [|reflexivity].
    now destruct (upstream 2 _).
Qed.

Variable config : session_config.

(** C9.  For a configuration that has its three required settings and a
    bootstrap template that takes the agent id, one run of [start_session]
    sends the bootstrap request, then the create-session request, then the
    join request, each at most once and in this order, and nothing else.
    The join request is sent only after the create-session call replied
    with a session id.  An answer that is not an error took exactly the
    three requests.  A call that fails is the last one sent, and the answer
    is then an error. *)
Theorem three_calls_in_order (url : string) :
  let bootstrap_url := field_or (bootstrapUrl config) BOOTSTRAP_URL_TEMPLATE in
  let agent_id := field_or (agentId config) AGENT_ID in
  let domain_url := field_or (domainUrl config) DOMAIN_URL in
  let salesforce_endpoint :=
    field_or (salesforceEndpoint config) SALESFORCE_ENDPOINT in
  let run :=
    start_session BOOTSTRAP_URL_TEMPLATE AGENT_ID DOMAIN_URL
      SALESFORCE_ENDPOINT str_format py_repr upstream config in
  let b := bootstrap_request url domain_url in
  let c := create_request agent_id salesforce_endpoint domain_url in
  let j := join_request salesforce_endpoint domain_url in
  PyStr.truthy bootstrap_url = true -> PyStr.truthy agent_id = true ->
  PyStr.truthy salesforce_endpoint = true ->
  str_format bootstrap_url agent_id = Some url ->
  (snd run = [b] \/ (exists tok, snd run = [b; c tok]) \/
   (exists tok sid, snd run = [b; c tok; j tok sid])) /\
  (forall rq, snd run !! 2%nat = Some rq ->
     exists tok session_data sid,
       snd run = [b; c tok; j tok sid] /\
       upstream 1 (c tok) = Replied session_data /\
       py_get session_data "sessionId" = Done sid /\ truthy sid = true) /\
  (~ is_error (fst run) -> length (snd run) = 3) /\
  (forall n rq e, snd run !! n = Some rq -> upstream n rq = Failed e ->
     length (snd run) = S n /\ is_error (fst run)).
Proof.
  intros bootstrap_url agent_id domain_url salesforce_endpoint run b c j
    Hb Ha He Hf.
  assert (Hrun : run = laid_out url agent_id domain_url salesforce_endpoint).
  { unfold run, start_session.
    fold bootstrap_url agent_id domain_url salesforce_endpoint.
    rewrite Hb, Ha, He. simpl. now apply session_steps_laid_out. }
  rewrite Hrun. clear Hrun run. unfold laid_out. fold b c j.
  destruct (upstream 0 b) as [token_data|e0] eqn:E0.
  2: { simpl. repeat split; auto.
       - intros rq [=].
       - intros H. destruct H. apply handle_raised_is_error.
       - destruct n as [|n]; [reflexivity | discriminate].
       - apply handle_raised_is_error. }
  destruct (access_token_in token_data) as [r|tok] eqn:Etok.
  { apply access_token_in_error in Etok. simpl. repeat split; auto.
    - intros rq [=].
    - tauto.
    - destruct n as [|n]; [|discriminate]. simpl in H. injection H as <-.
      congruence. }
  destruct (upstream 1 (c tok)) as [session_data|e1] eqn:E1.
  2: { simpl. repeat split; eauto.
       - intros rq [=].
       - intros H. destruct H. apply handle_raised_is_error.
       - destruct n as [|[|n]]; simpl in H; try discriminate;
           injection H as <-; [congruence | reflexivity].
       - apply handle_raised_is_error. }
  destruct (session_id_in session_data) as [r|sid] eqn:Esid.
  { apply session_id_in_error in Esid. simpl. repeat split; eauto.
    - intros rq [=].
    - tauto.
    - destruct n as [|[|n]]; simpl in H; try discriminate;
        injection H as <-; congruence. }
  apply session_id_in_truthy in Esid as [Hget Hsid].
  simpl. repeat split.
  - right. right. eauto.
  - intros rq _. exists tok, session_data, sid. auto.
  - destruct n as [|[|[|n]]]; simpl in H; try discriminate; reflexivity
      || (injection H as <-; congruence).
  - destruct n as [|[|[|n]]]; simpl in H; try discriminate;
      injection H as <-; try congruence.
    rewrite H0. apply handle_raised_is_error.
Qed.

(** When all three calls are answered and the join reply lacks a credential,
    the endpoint answers the error that carries the join reply. *)
Lemma start_session_reports_missing_credentials
    (url : string) (token_data tok session_data sid join_data : json) :
  let bootstrap_url := field_or (bootstrapUrl config) BOOTSTRAP_URL_TEMPLATE in
  let agent_id := field_or (agentId config) AGENT_ID in
  let domain_url := field_or (domainUrl config) DOMAIN_URL in
  let salesforce_endpoint :=
    field_or (salesforceEndpoint config) SALESFORCE_ENDPOINT in
  let b := bootstrap_request url domain_url in
  let c := create_request agent_id salesforce_endpoint domain_url in
  let j := join_request salesforce_endpoint domain_url in
  PyStr.truthy bootstrap_url = true -> PyStr.truthy agent_id = true ->
  PyStr.truthy salesforce_endpoint = true ->
  str_format bootstrap_url agent_id = Some url ->
  upstream 0 b = Replied token_data ->
  access_token_in token_data = inr tok ->
  upstream 1 (c tok) = Replied session_data ->
  session_id_in session_data = inr sid ->
  upstream 2 (j tok sid) = Replied join_data ->
  fst (extract_livekit_creds join_data) = None \/
  snd (extract_livekit_creds join_data) = None ->
  start_session BOOTSTRAP_URL_TEMPLATE AGENT_ID DOMAIN_URL
    SALESFORCE_ENDPOINT str_format py_repr upstream config =
  (ErrorResponse 500 CredentialsNotFound (Some join_data),
   [b; c tok; j tok sid]).
Proof.
  intros bootstrap_url agent_id domain_url salesforce_endpoint b c j
    Hb Ha He Hf H0 Htok H1 Hsid H2 Hmiss.
  unfold start_session.
  fold bootstrap_url agent_id domain_url salesforce_endpoint.
  rewrite Hb, Ha, He. simpl.
  rewrite (session_steps_laid_out _ _ _ _ url) by assumption.
  unfold laid_out. fold b. rewrite H0, Htok. fold (c tok).
  rewrite H1, Hsid. fold (j tok sid). rewrite H2.
  now rewrite partial_credentials_rejected.
Qed.

End SessionTrace.

(** A run in which upstream answers all three calls. *)
Definition sample_upstream (n : nat) (rq : http_request) : http_reply :=
  match n with
  | 0 => Replied (JObject [("access_token", JString "bearer")])
  | 1 => Replied (JObject [("sessionId", JString "s-1")])
  | _ => Replied (JObject [("room", JObject [("token", JString "a.b.c");
                                             ("url", JString "wss://x")])])
  end.

Definition no_settings : session_config :=
  {| bootstrapUrl := None; agentId := None; domainUrl := None;
     salesforceEndpoint := None; userId := None |}.

Definition sample_run : session_response * list http_request :=
  start_session "https://site/bootstrap" "agent" "https://site"
    "https://api" (fun template _ => Some template) (fun _ => "")
    sample_upstream no_settings.

Lemma sample_run_succeeds :
  sample_run =
  (Credentials (JString "s-1") "wss://x" "a.b.c",
   [ {| http_verb := GET; http_url := "https://site/bootstrap";
        http_origin := "https://site"; http_authorization := None |};
     {| http_verb := POST;
        http_url := "https://api/einstein/ai-agent/v1.1/agents/agent/sessions";
        http_origin := "https://site";
        http_authorization := Some "Bearer bearer" |};
     {| http_verb := POST;
        http_url :=
          "https://api/einstein/ai-agent/v1.1/realtime/sessions/s-1/join";
        http_origin := "https://site";
        http_authorization := Some "Bearer bearer" |} ]).
Proof. reflexivity. Qed.

Lemma three_calls_in_order_witness :
  length (snd sample_run) = 3 /\ ~ is_error (fst sample_run).
Proof.
  destruct (three_calls_in_order "https://site/bootstrap" "agent"
              "https://site" "https://api" (fun template _ => Some template)
              (fun _ => "") sample_upstream no_settings
              "https://site/bootstrap")
    as (_ & _ & H & _); try reflexivity.
  assert (Hok : ~ is_error (fst sample_run)) by (intros []).
  split; [exact (H Hok) | exact Hok].
Defined.

End SessionSpec.

(** ** The command relay *)

Module RelayFacts.
Import Json Relay.

Implicit Types (queues : gmap string (list command_message)).
Implicit Types (q cmds : list command_message).

Lemma queue_of_insert_eq (d : string) q queues :
  queue_of d (<[d := q]> queues) = q.
Proof. unfold queue_of. now rewrite lookup_insert_eq. Qed.

Lemma queue_of_insert_ne (d d' : string) q queues :
  d <> d' -> queue_of d' (<[d := q]> queues) = queue_of d' queues.
Proof. intros H. unfold queue_of. now rewrite lookup_insert_ne. Qed.

(** [_queue_for] hands out the queue of the device and touches no other
    entry. *)
Lemma _queue_for_queue (d : string) queues :
  snd (_queue_for d queues) = queue_of d queues.
Proof. unfold _queue_for, queue_of. now destruct (queues !! d). Qed.

Lemma _queue_for_insert (d : string) q queues :
  <[d := q]> (fst (_queue_for d queues)) = <[d := q]> queues.
Proof.
  unfold _queue_for. destruct (queues !! d); simpl; [reflexivity|].
  apply insert_insert_eq.
Qed.

Lemma _queue_for_other (d d' : string) queues :
  d <> d' -> fst (_queue_for d queues) !! d' = queues !! d'.
Proof.
  intros H. unfold _queue_for. destruct (queues !! d); simpl; [reflexivity|].
  now apply lookup_insert_ne.
Qed.

Lemma _queue_for_creates (d : string) queues :
  fst (_queue_for d queues) !! d = Some (queue_of d queues).
Proof.
  unfold _queue_for, queue_of. destruct (queues !! d) eqn:E; simpl.
  - exact E.
  - apply lookup_insert_eq.
Qed.

(** The drain loop moves the head of the queue to the tail of [cmds] as long
    as [cmds] is shorter than [max_items]. *)
Lemma drain_take_drop (max_items : Z) q cmds :
  let k := Z.to_nat (max_items - Z.of_nat (length cmds)) in
  drain max_items q cmds = (skipn k q, cmds ++ firstn k q).
Proof.
  revert cmds. induction q as [|m q IH]; intros cmds k; simpl.
  - now rewrite firstn_nil, skipn_nil, app_nil_r.
  - destruct (Z.ltb_spec (Z.of_nat (length cmds)) max_items) as [Hlt|Hge].
    + rewrite IH. rewrite length_app. simpl.
      assert (Hk : k = S (Z.to_nat
                (max_items - Z.of_nat (length cmds + 1)))) by (unfold k; lia).
      rewrite Hk. simpl. now rewrite <- app_assoc.
    + assert (Hk : k = 0%nat) by (unfold k; lia).
      rewrite Hk. simpl. now rewrite app_nil_r.
Qed.

(** Started with nothing collected, it hands out the first
    [min(max_items, len(q))] commands and keeps the rest. *)
Lemma drain_from_empty (max_items : Z) q :
  let k := Z.to_nat (Z.min max_items (Z.of_nat (length q))) in
  drain max_items q [] = (skipn k q, firstn k q).
Proof.
  intros k. rewrite drain_take_drop. simpl. rewrite Z.sub_0_r.
  destruct (Z.le_ge_cases max_items (Z.of_nat (length q))) as [H|H].
  - unfold k. now rewrite Z.min_l.
  - unfold k. rewrite Z.min_r, Nat2Z.id by assumption.
    rewrite firstn_all, skipn_all.
    rewrite firstn_all2, skipn_all2 by lia. reflexivity.
Qed.

Lemma drain_keeps_order (max_items : Z) q cmds q' cmds' :
  drain max_items q cmds = (q', cmds') -> cmds' ++ q' = cmds ++ q.
Proof.
  rewrite drain_take_drop. intros [= <- <-].
  now rewrite <- app_assoc, firstn_skipn.
Qed.


(** *** Enqueue *)

Definition message (command : string) (payload : json) : command_message :=
  {| msg_type := command; msg_payload := payload |}.

(** A request whose command is a single blank. *)
Definition blank_command : command_body :=
  {| cmd_deviceId := Some "kiosk"; cmd_command := Some " ";
     cmd_payload := JNull |}.

(** C5 as stated fails at [blank_command]: the command type " " is not
    empty, yet the request is refused and nothing is queued. *)
Lemma enqueue_refuses_blank_command :
  cmd_command blank_command = Some " " /\ " " <> "" /\
  enqueue_command blank_command ∅ = (∅, MissingCommand).
Proof. repeat split. discriminate. Qed.

(** C5, amended.  The device id of a request is its [deviceId], or
    "default-phone" when that is absent or empty, with surrounding white
    space removed; its command type is its [command], empty when absent,
    with surrounding white space removed.  If the command type is not
    empty, the message with this type and the payload is appended at the
    tail of the queue of this device, which is created if absent, no other
    queue changes, and the answer reports the message and the new length of
    that queue.  The request is refused exactly when the command type is
    empty, and then the queues are left as they were. *)
Theorem enqueue_appends_or_refuses (body : command_body)
    (queues : gmap string (list command_message)) :
  let device_id := device_of (cmd_deviceId body) in
  let command := command_of (cmd_command body) in
  let m := message command (cmd_payload body) in
  (command <> "" ->
   enqueue_command body queues =
   (<[device_id := queue_of device_id queues ++ [m]]> queues,
    Queued device_id m (S (length (queue_of device_id queues))))) /\
  (command = "" -> enqueue_command body queues = (queues, MissingCommand)) /\
  (snd (enqueue_command body queues) = MissingCommand <-> command = "").
Proof.
  intros device_id command m.
  assert (Hyes : command <> "" ->
    enqueue_command body queues =
    (<[device_id := queue_of device_id queues ++ [m]]> queues,
     Queued device_id m (S (length (queue_of device_id queues))))).
  { intros Hc. unfold enqueue_command. fold device_id command.
    assert (Ht : PyStr.truthy command = true)
      by (destruct command; [congruence | reflexivity]).
    rewrite Ht. simpl.
    pose proof (_queue_for_queue device_id queues) as Hq.
    pose proof (_queue_for_insert device_id (queue_of device_id queues ++ [m])
                  queues) as Hi.
    destruct (_queue_for device_id queues) as [queues1 q]. simpl in Hq, Hi.
    subst q.
    change {| msg_type := command; msg_payload := cmd_payload body |} with m.
    rewrite Hi, length_app. simpl.
    now rewrite Nat.add_1_r. }
  assert (Hno : command = "" ->
    enqueue_command body queues = (queues, MissingCommand)).
  { intros Hc. unfold enqueue_command. fold command. now rewrite Hc. }
  split; [exact Hyes|]. split; [exact Hno|]. split.
  - intros H. destruct (string_dec command "") as [Hc|Hc]; [exact Hc|].
    rewrite (Hyes Hc) in H. discriminate.
  - intros Hc. now rewrite (Hno Hc).
Qed.

Lemma enqueue_appends_or_refuses_witness :
  enqueue_command
    {| cmd_deviceId := None; cmd_command := Some " end ";
       cmd_payload := JNull |} ∅ =
  (<["default-phone" := [message "end" JNull]]> ∅,
   Queued "default-phone" (message "end" JNull) 1).
Proof.
  destruct (enqueue_appends_or_refuses
              {| cmd_deviceId := None; cmd_command := Some " end ";
                 cmd_payload := JNull |} ∅) as (H & _).
  apply H. discriminate.
Defined.

(** *** Poll *)

Lemma Qltb_lt (a b : Q) : Qltb a b = true <-> (a < b)%Q.
Proof. unfold Qltb, Qlt. apply Z.ltb_lt. Qed.

Lemma Qltb_ge (a b : Q) : Qltb a b = false <-> (b <= a)%Q.
Proof. unfold Qltb, Qle. rewrite Z.ltb_ge. reflexivity. Qed.

(** C6.  A poll that finds its queue not empty removes the first
    [min(max, length)] commands from the head and returns them in queue
    order, without sleeping, and leaves the rest of the queue in place; a
    poll with [wait] false that finds its queue empty returns no command,
    without sleeping. *)
Theorem poll_drains_at_once (w : world) (fuel : nat) (body : poll_body)
    (queues : gmap string (list command_message)) :
  let device_id := device_of (poll_deviceId body) in
  let max_items := default 5%Z (poll_max body) in
  let q := queue_of device_id queues in
  let k := Z.to_nat (Z.min max_items (Z.of_nat (length q))) in
  (q <> [] -> (0 < fuel)%nat ->
   poll_commands w fuel body queues =
   Some (<[device_id := skipn k q]> queues,
         {| resp_deviceId := device_id; resp_commands := firstn k q |},
         0%nat)) /\
  (q = [] -> poll_wait body = Some false ->
   poll_commands w fuel body queues =
   Some (<[device_id := []]> queues,
         {| resp_deviceId := device_id; resp_commands := [] |}, 0%nat)).
Proof.
  intros device_id max_items q k.
  pose proof (_queue_for_queue device_id queues) as Hq.
  pose proof (fun x => _queue_for_insert device_id x queues) as Hi.
  unfold poll_commands. fold device_id max_items.
  destruct (_queue_for device_id queues) as [queues1 q0].
  simpl in Hq, Hi. fold q in Hq. subst q0.
  rewrite (drain_from_empty max_items q). fold k.
  split.
  - intros Hne Hfuel.
    destruct (firstn k q) as [|m cmds] eqn:Ecmds; simpl.
    2: { now rewrite Hi. }
    destruct (default true (poll_wait body)); simpl; [|now rewrite Hi].
    destruct fuel as [|fuel]; [lia|]. simpl.
    assert (Hk : k = 0%nat).
    { destruct k; [reflexivity|]. destruct q; [congruence | discriminate]. }
    rewrite Hk in *. simpl.
    destruct (Qltb _ _); [|now rewrite Hi].
    destruct q as [|m q']; [congruence|].
    assert (Hmax : (max_items <= 0)%Z) by (unfold k in Hk; simpl in Hk; lia).
    simpl. destruct (Z.ltb_spec (Z.of_nat 0) max_items) as [H|H];
      [simpl in H; lia|].
    now rewrite Hi.
  - intros Hnil Hwait. rewrite Hnil, Hwait. unfold k. rewrite Hnil.
    rewrite firstn_nil, skipn_nil. simpl. now rewrite Hi.
Qed.

Lemma poll_drains_at_once_witness :
  poll_commands {| clock := fun _ => 0%Q; arrivals := fun _ => [] |} 1
    {| poll_deviceId := Some "kiosk"; poll_max := Some 1%Z;
       poll_wait := None; poll_timeout := None |}
    (<["kiosk" := [message "a" JNull; message "b" JNull]]> ∅) =
  Some (<["kiosk" := [message "b" JNull]]>
          (<["kiosk" := [message "a" JNull; message "b" JNull]]> ∅),
        {| resp_deviceId := "kiosk"; resp_commands := [message "a" JNull] |},
        0%nat).
Proof.
  destruct (poll_drains_at_once
              {| clock := fun _ => 0%Q; arrivals := fun _ => [] |} 1
              {| poll_deviceId := Some "kiosk"; poll_max := Some 1%Z;
                 poll_wait := None; poll_timeout := None |}
              (<["kiosk" := [message "a" JNull; message "b" JNull]]> ∅))
    as (H & _).
  apply H; [discriminate | lia].
Defined.


(** *** The long poll *)

(** With nothing arriving, the loop sleeps until the first reading of the
    clock that is [timeout_s] or more past [start], and leaves empty-handed;
    [n] bounds the number of sleeps still to come. *)
Lemma wait_loop_times_out (w : world) (timeout_s : Q) (max_items : Z)
    (n k : nat) :
  (forall i, arrivals w i = []) ->
  Qltb (clock w (S (k + n)) - clock w 0) timeout_s = false ->
  exists slept,
    (k <= slept <= k + n)%nat /\
    Qltb (clock w (S slept) - clock w 0) timeout_s = false /\
    (forall i, (k <= i < slept)%nat ->
               Qltb (clock w (S i) - clock w 0) timeout_s = true) /\
    forall fuel, (slept - k < fuel)%nat ->
      wait_loop w timeout_s max_items fuel k [] [] = Some ([], [], slept).
Proof.
  intros Hquiet. revert k. induction n as [|n IH]; intros k Hend.
  - rewrite Nat.add_0_r in Hend. exists k. repeat split; try lia.
    + exact Hend.
    + intros fuel Hfuel. destruct fuel as [|fuel]; [lia|]. simpl.
      now rewrite Hend.
  - destruct (Qltb (clock w (S k) - clock w 0) timeout_s) eqn:Enow.
    + replace (k + S n)%nat with (S k + n)%nat in Hend by lia.
      destruct (IH (S k) Hend) as (slept & Hrange & Hout & Hin & Hrun).
      exists slept. repeat split; try lia.
      * exact Hout.
      * intros i Hi. destruct (Nat.eq_dec i k) as [->|Hne]; [exact Enow|].
        apply Hin. lia.
      * intros fuel Hfuel. destruct fuel as [|fuel]; [lia|]. simpl.
        rewrite Enow, Hquiet. apply Hrun. lia.
    + exists k. repeat split; try lia.
      * exact Enow.
      * intros fuel Hfuel. destruct fuel as [|fuel]; [lia|]. simpl.
        now rewrite Enow.
Qed.

(** Each sleep taking a tenth of a second or more, the [n]-th test of the
    loop reads a clock at least [n] tenths past the first test. *)
Lemma clock_after_sleeps (w : world) (n : nat) :
  (forall k, (clock w (S k) + (1 # 10) <= clock w (S (S k)))%Q) ->
  (clock w 1 + inject_Z (Z.of_nat n) * (1 # 10) <= clock w (S n))%Q.
Proof.
  intros Hsleep. induction n as [|n IH].
  - change (inject_Z (Z.of_nat 0)) with 0%Q. lra.
  - specialize (Hsleep n). rewrite Nat2Z.inj_succ. unfold Z.succ.
    rewrite inject_Z_plus. change (inject_Z 1) with 1%Q.
    generalize dependent (inject_Z (Z.of_nat n)). intros tenths IH. lra.
Qed.

(** C7.  A poll with [wait] not false, whose queue is empty and stays empty
    while it waits, ends: it sleeps a tenth of a second at a time, re-reads
    the clock after each sleep, and returns the empty command list at the
    first reading that is [timeout] or more past the start, not at an
    earlier one. *)
Theorem poll_times_out (w : world) (body : poll_body)
    (queues : gmap string (list command_message)) :
  let device_id := device_of (poll_deviceId body) in
  let timeout_s := default 25%Q (poll_timeout body) in
  queue_of device_id queues = [] ->
  poll_wait body <> Some false ->
  (forall i, arrivals w i = []) ->
  (forall k, (clock w (S k) + (1 # 10) <= clock w (S (S k)))%Q) ->
  exists slept,
    (forall fuel, (slept < fuel)%nat ->
       poll_commands w fuel body queues =
       Some (<[device_id := []]> queues,
             {| resp_deviceId := device_id; resp_commands := [] |}, slept)) /\
    (timeout_s <= clock w (S slept) - clock w 0)%Q /\
    (forall i, (i < slept)%nat -> (clock w (S i) - clock w 0 < timeout_s)%Q).
Proof.
  intros device_id timeout_s Hempty Hwait Hquiet Hsleep.
  set (n := Z.to_nat
              (Qceiling ((timeout_s - (clock w 1 - clock w 0)) * 10))).
  assert (Hend : Qltb (clock w (S (0 + n)) - clock w 0) timeout_s = false).
  { apply Qltb_ge. simpl.
    pose proof (clock_after_sleeps w n Hsleep) as Hn.
    pose proof (Qle_ceiling ((timeout_s - (clock w 1 - clock w 0)) * 10))
      as Hc.
    assert (Hz : (inject_Z (Qceiling
                    ((timeout_s - (clock w 1 - clock w 0)) * 10))
                  <= inject_Z (Z.of_nat n))%Q).
    { rewrite <- Zle_Qle. unfold n. lia. }
    generalize dependent (inject_Z (Z.of_nat n)).
    generalize dependent
      (inject_Z (Qceiling ((timeout_s - (clock w 1 - clock w 0)) * 10))).
    intros ceiling Hc tenths Hn Hz. lra. }
  destruct (wait_loop_times_out w timeout_s (default 5%Z (poll_max body))
              n 0 Hquiet Hend) as (slept & _ & Hout & Hin & Hrun).
  exists slept. split; [|split].
  - intros fuel Hfuel.
    pose proof (_queue_for_queue device_id queues) as Hq.
    pose proof (fun x => _queue_for_insert device_id x queues) as Hi.
    unfold poll_commands. fold device_id timeout_s.
    destruct (_queue_for device_id queues) as [queues1 q0].
    simpl in Hq, Hi. rewrite Hempty in Hq. subst q0. simpl.
    assert (Hw : default true (poll_wait body) = true).
    { destruct (poll_wait body) as [[|]|]; [reflexivity | congruence |
        reflexivity]. }
    rewrite Hw. simpl. rewrite Hrun by lia. now rewrite Hi.
  - now apply Qltb_ge.
  - intros i Hi. apply Qltb_lt, Hin. lia.
Qed.

(** A clock that stands still outside the sleeps and gains one second per
    sleep; nothing arrives. *)
Definition slow_world : world :=
  {| clock := fun k => inject_Z (Z.of_nat (Nat.pred k));
     arrivals := fun _ => [] |}.

Definition waiting_poll : poll_body :=
  {| poll_deviceId := Some "kiosk"; poll_max := None; poll_wait := Some true;
     poll_timeout := Some 1%Q |}.

Lemma poll_times_out_witness :
  exists slept,
    (forall fuel, (slept < fuel)%nat ->
       poll_commands slow_world fuel waiting_poll ∅ =
       Some (<["kiosk" := []]> ∅,
             {| resp_deviceId := "kiosk"; resp_commands := [] |}, slept)) /\
    (1 <= clock slow_world (S slept) - clock slow_world 0)%Q /\
    (forall i, (i < slept)%nat ->
               (clock slow_world (S i) - clock slow_world 0 < 1)%Q).
Proof.
  apply (poll_times_out slow_world waiting_poll ∅).
  - reflexivity.
  - discriminate.
  - reflexivity.
  - intros k. unfold Qle. simpl. lia.
Defined.

(** The same poll, run: one second asked, one second per sleep, so the
    first test of the loop is in time and the second is not. *)
Lemma waiting_poll_sleeps_once :
  option_map (fun r => (snd (fst r), snd r))
    (poll_commands slow_world 2 waiting_poll ∅) =
  Some ({| resp_deviceId := "kiosk"; resp_commands := [] |}, 1%nat).
Proof. vm_compute. reflexivity. Qed.


(** *** The handlers, with [_queue_for] resolved *)

Lemma enqueue_command_eq (body : command_body) queues :
  let device_id := device_of (cmd_deviceId body) in
  let command := command_of (cmd_command body) in
  let m := message command (cmd_payload body) in
  enqueue_command body queues =
  if negb (PyStr.truthy command) then (queues, MissingCommand)
  else (<[device_id := queue_of device_id queues ++ [m]]> queues,
        Queued device_id m (length (queue_of device_id queues ++ [m]))).
Proof.
  intros device_id command m. unfold enqueue_command.
  fold device_id command.
  destruct (PyStr.truthy command); simpl; [|reflexivity].
  pose proof (_queue_for_queue device_id queues) as Hq.
  pose proof (fun x => _queue_for_insert device_id x queues) as Hi.
  destruct (_queue_for device_id queues) as [queues1 q]. simpl in Hq, Hi.
  subst q. now rewrite Hi.
Qed.

Definition nonempty {A : Type} (l : list A) : bool :=
  match l with [] => false | _ :: _ => true end.

Lemma poll_commands_eq (w : world) (fuel : nat) (body : poll_body) queues :
  let device_id := device_of (poll_deviceId body) in
  let max_items := default 5%Z (poll_max body) in
  poll_commands w fuel body queues =
  let '(q1, cmds) := drain max_items (queue_of device_id queues) [] in
  if nonempty cmds || negb (default true (poll_wait body)) then
    Some (<[device_id := q1]> queues,
          {| resp_deviceId := device_id; resp_commands := cmds |}, 0%nat)
  else
    match wait_loop w (default 25%Q (poll_timeout body)) max_items fuel 0
            q1 cmds with
    | None => None
    | Some (q2, cmds2, slept) =>
        Some (<[device_id := q2]> queues,
              {| resp_deviceId := device_id; resp_commands := cmds2 |}, slept)
    end.
Proof.
  intros device_id max_items. unfold poll_commands.
  fold device_id max_items.
  pose proof (_queue_for_queue device_id queues) as Hq.
  pose proof (fun x => _queue_for_insert device_id x queues) as Hi.
  destruct (_queue_for device_id queues) as [queues1 q]. simpl in Hq, Hi.
  subst q.
  destruct (drain max_items (queue_of device_id queues) []) as [q1 cmds].
  unfold nonempty.
  destruct (_ || _); [now rewrite Hi|].
  destruct (wait_loop _ _ _ _ _ _ _) as [[[q2 cmds2] slept]|];
    [now rewrite Hi | reflexivity].
Qed.

(** *** One device does not see another *)

(** What the caller of a poll observes: the answer and the sleeps. *)
Definition observed
    (r : option (gmap string (list command_message) * poll_response * nat))
  : option (poll_response * nat) :=
  option_map (fun x => (snd (fst x), snd x)) r.

(** A poll reads and writes the queue of its own device only. *)
Lemma poll_reads_own_queue (w : world) (fuel : nat) (body : poll_body)
    queues1 queues2 :
  queue_of (device_of (poll_deviceId body)) queues1 =
  queue_of (device_of (poll_deviceId body)) queues2 ->
  observed (poll_commands w fuel body queues1) =
  observed (poll_commands w fuel body queues2).
Proof.
  intros H. rewrite !poll_commands_eq. simpl. rewrite H.
  destruct (drain _ _ _) as [q1 cmds].
  destruct (_ || _); [reflexivity|].
  now destruct (wait_loop _ _ _ _ _ _ _) as [[[q2 cmds2] slept]|].
Qed.

Lemma poll_writes_own_queue (w : world) (fuel : nat) (body : poll_body)
    queues queues' (r : poll_response) (slept : nat) :
  poll_commands w fuel body queues = Some (queues', r, slept) ->
  exists q, queues' = <[device_of (poll_deviceId body) := q]> queues.
Proof.
  rewrite poll_commands_eq. simpl.
  destruct (drain _ _ _) as [q1 cmds].
  destruct (_ || _); [intros [= <- _ _]; eauto|].
  destruct (wait_loop _ _ _ _ _ _ _) as [[[q2 cmds2] n]|]; [|discriminate].
  intros [= <- _ _]. eauto.
Qed.

Lemma enqueue_writes_own_queue (body : command_body) queues :
  fst (enqueue_command body queues) = queues \/
  exists q,
    fst (enqueue_command body queues) =
    <[device_of (cmd_deviceId body) := q]> queues.
Proof.
  rewrite enqueue_command_eq. simpl.
  destruct (negb _); simpl; [now left | right; eauto].
Qed.

(** Two requests whose device ids differ only by a trailing blank. *)
Definition padded_command : command_body :=
  {| cmd_deviceId := Some "kiosk "; cmd_command := Some "end";
     cmd_payload := JNull |}.

Definition plain_poll : poll_body :=
  {| poll_deviceId := Some "kiosk"; poll_max := None;
     poll_wait := Some false; poll_timeout := None |}.

(** C8 as stated fails for the device ids "kiosk " and "kiosk": they are
    two distinct ids, and the command enqueued for the first is handed to a
    poll against the second. *)
Lemma padded_id_reaches_plain_id :
  cmd_deviceId padded_command = Some "kiosk " /\
  poll_deviceId plain_poll = Some "kiosk" /\
  "kiosk " <> "kiosk" /\
  observed (poll_commands slow_world 0 plain_poll
              (fst (enqueue_command padded_command ∅))) =
  Some ({| resp_deviceId := "kiosk";
           resp_commands := [message "end" JNull] |}, 0%nat).
Proof.
  split; [reflexivity|]. split; [reflexivity|]. split; [discriminate|].
  vm_compute. reflexivity.
Qed.

(** C8, amended.  The device a request works on is its [deviceId], or
    "default-phone" when that is absent or empty, with surrounding white
    space removed.  For two requests working on distinct devices A and B:
    an enqueue for A and a poll against A leave the queue of B as it was,
    and a poll against B answers the same whether or not a command was
    enqueued for A, or a poll against A ran, just before. *)
Theorem other_queue_untouched (B : string)
    (queues : gmap string (list command_message)) :
  (forall body, device_of (cmd_deviceId body) <> B ->
     fst (enqueue_command body queues) !! B = queues !! B) /\
  (forall w fuel body queues' r slept,
     device_of (poll_deviceId body) <> B ->
     poll_commands w fuel body queues = Some (queues', r, slept) ->
     queues' !! B = queues !! B) /\
  (forall w fuel cmd poll,
     device_of (cmd_deviceId cmd) <> B ->
     device_of (poll_deviceId poll) = B ->
     observed (poll_commands w fuel poll (fst (enqueue_command cmd queues))) =
     observed (poll_commands w fuel poll queues)) /\
  (forall w fuel w' fuel' pollA pollB queues' r slept,
     device_of (poll_deviceId pollA) <> B ->
     device_of (poll_deviceId pollB) = B ->
     poll_commands w fuel pollA queues = Some (queues', r, slept) ->
     observed (poll_commands w' fuel' pollB queues') =
     observed (poll_commands w' fuel' pollB queues)).
Proof.
  assert (Henq : forall body, device_of (cmd_deviceId body) <> B ->
            fst (enqueue_command body queues) !! B = queues !! B).
  { intros body Hne.
    destruct (enqueue_writes_own_queue body queues) as [-> | [q ->]];
      [reflexivity | now apply lookup_insert_ne]. }
  assert (Hpoll : forall w fuel body queues' r slept,
            device_of (poll_deviceId body) <> B ->
            poll_commands w fuel body queues = Some (queues', r, slept) ->
            queues' !! B = queues !! B).
  { intros w fuel body queues' r slept Hne Hrun.
    apply poll_writes_own_queue in Hrun as [q ->].
    now apply lookup_insert_ne. }
  split; [exact Henq|]. split; [exact Hpoll|]. split.
  - intros w fuel cmd poll Hne HB. apply poll_reads_own_queue.
    unfold queue_of. rewrite HB. now rewrite Henq.
  - intros w fuel w' fuel' pollA pollB queues' r slept Hne HB Hrun.
    apply poll_reads_own_queue. unfold queue_of. rewrite HB.
    now rewrite (Hpoll _ _ _ _ _ _ Hne Hrun).
Qed.

Lemma other_queue_untouched_witness :
  fst (enqueue_command padded_command
         (<["lobby" := [message "mute" JNull]]> ∅)) !! "lobby" =
  Some [message "mute" JNull].
Proof.
  destruct (other_queue_untouched "lobby"
              (<["lobby" := [message "mute" JNull]]> ∅)) as (H & _).
  rewrite (H padded_command); [reflexivity | discriminate].
Defined.


(** *** First in, first out *)

Lemma appended_to_app (d : string) (h1 h2 : list event) :
  appended_to d (h1 ++ h2) = appended_to d h1 ++ appended_to d h2.
Proof.
  induction h1 as [|[d' ms|d' ms] h1 IH]; simpl; [reflexivity | |exact IH].
  now rewrite IH, app_assoc.
Qed.

Lemma delivered_to_app (d : string) (h1 h2 : list event) :
  delivered_to d (h1 ++ h2) = delivered_to d h1 ++ delivered_to d h2.
Proof.
  induction h1 as [|[d' ms|d' ms] h1 IH]; simpl; [reflexivity | exact IH|].
  now rewrite IH, app_assoc.
Qed.

(** The long poll hands out, in order, a prefix of what it had collected,
    found queued, and saw arrive. *)
Lemma wait_loop_keeps_order (w : world) (timeout_s : Q) (max_items : Z)
    (fuel k : nat) q cmds q' cmds' (slept : nat) :
  wait_loop w timeout_s max_items fuel k q cmds = Some (q', cmds', slept) ->
  (k <= slept)%nat /\
  cmds' ++ q' =
  cmds ++ q ++ concat (map (arrivals w) (seq k (slept - k))).
Proof.
  revert k q. induction fuel as [|fuel IH]; intros k q; simpl;
    [discriminate|].
  destruct (Qltb _ _).
  - destruct q as [|m q0].
    + intros H. apply IH in H as [Hk H]. split; [lia|].
      rewrite H. simpl.
      replace (slept - k)%nat with (S (slept - S k)) by lia. reflexivity.
    + destruct (drain max_items (m :: q0) cmds) as [q1 cmds1] eqn:Ed.
      intros [= <- <- <-]. split; [lia|].
      rewrite Nat.sub_diag. simpl. rewrite app_nil_r.
      now apply (drain_keeps_order max_items).
  - intros [= <- <- <-]. split; [lia|].
    rewrite Nat.sub_diag. simpl. now rewrite app_nil_r.
Qed.

(** Serving one request keeps, for every device, what was handed out
    followed by what is queued equal to what was queued followed by what
    was appended. *)
Lemma serve_keeps_order (rq : request) queues queues' (h : list event)
    (d : string) :
  serve rq queues = Some (queues', h) ->
  delivered_to d h ++ queue_of d queues' =
  queue_of d queues ++ appended_to d h.
Proof.
  destruct rq as [body | w fuel body]; simpl.
  - rewrite enqueue_command_eq. simpl.
    destruct (negb _); simpl; intros [= <- <-]; simpl.
    + now rewrite app_nil_r.
    + destruct (String.eqb_spec (device_of (cmd_deviceId body)) d)
        as [<-|Hne].
      * now rewrite queue_of_insert_eq, app_nil_r.
      * rewrite queue_of_insert_ne by assumption. simpl.
        now rewrite app_nil_r.
  - rewrite poll_commands_eq. simpl.
    destruct (drain _ _ _) as [q1 cmds] eqn:Ed.
    apply drain_keeps_order in Ed. simpl in Ed.
    destruct (_ || _).
    + intros [= <- <-]. simpl.
      destruct (String.eqb_spec (device_of (poll_deviceId body)) d)
        as [<-|Hne].
      * rewrite queue_of_insert_eq, !app_nil_r. exact Ed.
      * rewrite queue_of_insert_ne by assumption. simpl.
        now rewrite app_nil_r.
    + destruct (wait_loop _ _ _ _ _ _ _) as [[[q2 cmds2] slept]|] eqn:Ew;
        [|discriminate].
      apply wait_loop_keeps_order in Ew as [_ Hw].
      rewrite Nat.sub_0_r in Hw. fold (arrived w slept) in Hw.
      intros [= <- <-]. simpl.
      destruct (String.eqb_spec (device_of (poll_deviceId body)) d)
        as [<-|Hne].
      * rewrite queue_of_insert_eq, !app_nil_r, Hw, app_assoc, Ed.
        reflexivity.
      * rewrite queue_of_insert_ne by assumption. simpl.
        now rewrite app_nil_r.
Qed.

Lemma run_keeps_order (rqs : list request) queues queues' (h : list event)
    (d : string) :
  run rqs queues = Some (queues', h) ->
  delivered_to d h ++ queue_of d queues' =
  queue_of d queues ++ appended_to d h.
Proof.
  revert queues h. induction rqs as [|rq rqs IH]; intros queues h; simpl.
  - intros [= <- <-]. simpl. now rewrite app_nil_r.
  - destruct (serve rq queues) as [[queues1 h1]|] eqn:Es; [|discriminate].
    destruct (run rqs queues1) as [[queues2 h2]|] eqn:Er; [|discriminate].
    intros [= <- <-].
    rewrite delivered_to_app, appended_to_app, <- app_assoc.
    rewrite (IH _ _ Er), app_assoc, (serve_keeps_order _ _ _ _ d Es).
    now rewrite app_assoc.
Qed.

(** Two commands for a device, then two polls that take one command each. *)
Definition kiosk_command (command : string) : command_body :=
  {| cmd_deviceId := Some "kiosk"; cmd_command := Some command;
     cmd_payload := JNull |}.

Definition kiosk_poll_one : poll_body :=
  {| poll_deviceId := Some "kiosk"; poll_max := Some 1%Z; poll_wait := None;
     poll_timeout := None |}.

Definition a_b_poll_poll : list request :=
  [Command (kiosk_command "a"); Command (kiosk_command "b");
   Poll slow_world 1 kiosk_poll_one; Poll slow_world 1 kiosk_poll_one].

(** C4.  From the start of the process, whatever requests are served and in
    whatever order, for whatever devices, the commands handed out for a
    device, in the order handed out, followed by the commands still in its
    queue, are the commands appended to its queue, in the order appended:
    delivery order is enqueue order.  Enqueuing "a" then "b" and polling
    twice with [max] 1 hands out "a" to the first poll and "b" to the
    second. *)
Theorem delivery_follows_enqueue_order :
  (forall (rqs : list request) (device_id : string)
          (queues' : gmap string (list command_message)) (h : list event),
     run rqs ∅ = Some (queues', h) ->
     delivered_to device_id h ++ queue_of device_id queues' =
     appended_to device_id h) /\
  option_map snd (run a_b_poll_poll ∅) =
  Some [Appended "kiosk" [message "a" JNull];
        Appended "kiosk" [message "b" JNull];
        Appended "kiosk" []; Delivered "kiosk" [message "a" JNull];
        Appended "kiosk" []; Delivered "kiosk" [message "b" JNull]].
Proof.
  split.
  - intros rqs device_id queues' h Hrun.
    now rewrite (run_keeps_order _ _ _ _ device_id Hrun).
  - vm_compute. reflexivity.
Qed.

Lemma delivery_follows_enqueue_order_witness :
  exists queues' h,
    run a_b_poll_poll ∅ = Some (queues', h) /\
    delivered_to "kiosk" h ++ queue_of "kiosk" queues' =
    [message "a" JNull; message "b" JNull].
Proof.
  destruct delivery_follows_enqueue_order as [H _].
  destruct (run a_b_poll_poll ∅) as [[queues' h]|] eqn:Erun;
    [|vm_compute in Erun; discriminate].
  exists queues', h. split; [reflexivity|].
  rewrite (H a_b_poll_poll "kiosk" queues' h Erun).
  vm_compute in Erun. injection Erun as _ <-. reflexivity.
Defined.

End RelayFacts.

(** * Further properties of the code *)

(** ** Path lookup and the two scans *)

Module ExtractionMore.
Import PyStr Json Regex Broker PyStrFacts RegexFacts JsonFacts BrokerFacts.

Lemma split_app_sep (c : ascii) (x y : string) :
  split c (x +:+ String c y) = split c x ++ split c y.
Proof.
  induction x as [|a x IH]; sapp; simpl.
  - now rewrite Ascii.eqb_refl.
  - destruct (Ascii.eqb a c); [now rewrite IH|].
    rewrite IH. pose proof (split_not_nil c x) as Hne.
    destruct (split c x) as [|w ws]; [congruence | reflexivity].
Qed.

Lemma walk_null (parts : list string) : parts <> [] -> walk JNull parts = JNull.
Proof. destruct parts; [congruence | reflexivity]. Qed.

Lemma walk_app (l1 l2 : list string) (obj : json) :
  l2 <> [] -> walk obj (l1 ++ l2) = walk (walk obj l1) l2.
Proof.
  intros Hne. revert obj. induction l1 as [|p l1 IH]; intros obj; simpl;
    [reflexivity|].
  destruct obj as [| | | | |members]; try (now rewrite walk_null).
  destruct (dict_get p members) as [v|]; [apply IH | now rewrite walk_null].
Qed.

(** X1.  Looking up the path "p1.p2" is looking up p2 in what the lookup of
    p1 returns, whatever the two paths and the object: a lookup that fails
    half way gives [None], and every lookup in [None] gives [None]. *)
Theorem get_by_path_composes (obj : json) (p1 p2 : string) :
  _get_by_path obj (p1 +:+ "." +:+ p2) =
  _get_by_path (_get_by_path obj p1) p2.
Proof.
  unfold _get_by_path. change ("." +:+ p2) with (String "." p2).
  rewrite split_app_sep. apply walk_app, split_not_nil.
Qed.

(** X2.  A path lookup in anything that is not a dict gives [None], for
    every path, the empty path included: lists are never indexed, and the
    object itself is never returned. *)
Theorem get_by_path_off_dict (obj : json) (path : string) :
  (forall members, obj <> JObject members) ->
  _get_by_path obj path = JNull.
Proof.
  intros Hobj. unfold _get_by_path.
  pose proof (split_not_nil "." path) as Hne.
  destruct (split "." path) as [|p rest]; [congruence|]. simpl.
  destruct obj; try reflexivity. now destruct (Hobj members).
Qed.

Lemma get_by_path_off_dict_witness :
  _get_by_path (JArray [JObject [("token", JString "a.b.c")]]) "token" = JNull
  /\ _get_by_path (JString "wss://x") "" = JNull.
Proof.
  split; apply get_by_path_off_dict; intros members H; discriminate H.
Defined.

(** X3.  Each recursive scan returns the first string value of the
    document, depth first, dict members and list elements in their order,
    that passes its test: the match of [jwt_re] for the token, the prefix
    "wss://" for the URL.  Keys are not looked at. *)
Theorem scans_find_first_in_document_order (obj : json) :
  _find_first_jwt obj = find jwt_re_match (strings_of obj) /\
  _find_first_wss obj = find (startswith "wss://") (strings_of obj).
Proof.
  split; [apply _find_first_jwt_find | apply _find_first_wss_find].
Qed.

Lemma shape_segments (x : string) :
  spec_token_shape x = true <->
  exists a b c,
    x = a +:+ "." +:+ b +:+ "." +:+ c /\
    a <> "" /\ b <> "" /\ c <> "" /\
    all b64url a = true /\ all b64url b = true /\ all b64url c = true.
Proof.
  unfold spec_token_shape, spec_segment. split.
  - pose proof (split_join "." x) as Hj.
    destruct (split "." x) as [|a [|b [|c [|]]]]; try discriminate.
    intros [[[Ha Ha']%andb_true_iff [Hb Hb']%andb_true_iff]%andb_true_iff
            [Hc Hc']%andb_true_iff]%andb_true_iff.
    exists a, b, c. rewrite <- Hj.
    repeat split; try assumption; now apply PyStrFacts.truthy_iff.
  - intros (a & b & c & -> & Ha & Hb & Hc & Ha' & Hb' & Hc').
    change ("." +:+ b +:+ "." +:+ c) with (String "." (b +:+ "." +:+ c)).
    change ("." +:+ c) with (String "." c).
    rewrite !split_sep, split_no_sep
      by now apply (count_all_zero b64url).
    rewrite Ha', Hb', Hc'.
    apply PyStrFacts.truthy_iff in Ha, Hb, Hc. now rewrite Ha, Hb, Hc.
Qed.

(** X4.  [jwt_re] matches a string exactly when it is three non-empty runs
    of the characters A-Z, a-z, 0-9, "-" and "_" joined by two periods,
    alone or followed by one line feed. *)
Theorem jwt_re_language (s : string) :
  jwt_re_match s = true <->
  exists a b c,
    (s = a +:+ "." +:+ b +:+ "." +:+ c \/
     s = (a +:+ "." +:+ b +:+ "." +:+ c) +:+ LF) /\
    a <> "" /\ b <> "" /\ c <> "" /\
    all b64url a = true /\ all b64url b = true /\ all b64url c = true.
Proof.
  rewrite jwt_re_match_iff. split.
  - intros [H | (s' & -> & H)];
      apply shape_segments in H as (a & b & c & -> & Hrest);
      exists a, b, c; auto.
  - intros (a & b & c & [-> | ->] & Hrest).
    + left. apply shape_segments. exists a, b, c. auto.
    + right. exists (a +:+ "." +:+ b +:+ "." +:+ c). split; [reflexivity|].
      apply shape_segments. exists a, b, c. auto.
Qed.

Lemma jwt_re_language_witness : jwt_re_match "eyJ-_.e30.sig" = true.
Proof.
  apply jwt_re_language. exists "eyJ-_", "e30", "sig".
  split; [left; reflexivity|]. repeat split; discriminate.
Defined.

(** X5.  What the scan's pattern accepts, the path test accepts too: a
    string that [jwt_re] matches has exactly two periods. *)
Theorem scan_match_has_two_periods (s : string) :
  jwt_re_match s = true -> count "." s = 2.
Proof. intros H. now apply Nat.eqb_eq, jwt_re_match_two_dots. Qed.

Lemma scan_match_has_two_periods_witness : count "." "eyJ.eyJ.eyJ" = 2.
Proof. apply scan_match_has_two_periods. reflexivity. Defined.

Lemma extract_token_sound (join_data : json) (t : string) :
  fst (extract_livekit_creds join_data) = Some t ->
  In t (strings_of join_data) /\ count "." t = 2 /\ t <> "".
Proof.
  rewrite extract_token.
  destruct (token_by_paths join_data) as [t0|] eqn:Ep.
  - intros [= <-]. apply first_on_paths_ok in Ep as [Hok Hin].
    repeat split; [exact Hin | now apply Nat.eqb_eq |].
    intros ->. discriminate Hok.
  - rewrite _find_first_jwt_find. intros [Hin Hm]%find_some.
    apply jwt_re_match_two_dots in Hm.
    repeat split; [exact Hin | now apply Nat.eqb_eq |].
    intros ->. discriminate Hm.
Qed.

Lemma extract_url_sound (join_data : json) (u : string) :
  snd (extract_livekit_creds join_data) = Some u ->
  In u (strings_of join_data) /\ startswith "wss://" u = true /\ u <> "".
Proof.
  rewrite extract_url.
  destruct (url_by_paths join_data) as [u0|] eqn:Ep.
  - intros [= <-]. apply first_on_paths_ok in Ep as [Hok Hin].
    repeat split; [exact Hin | exact Hok |]. intros ->. discriminate Hok.
  - rewrite _find_first_wss_find. intros [Hin Hm]%find_some.
    repeat split; [exact Hin | exact Hm |]. intros ->. discriminate Hm.
Qed.

(** X6.  A token that [extract_livekit_creds] returns is a string value of
    the reply with exactly two periods, and a URL it returns is a string
    value of the reply that starts with "wss://"; neither is ever the empty
    string. *)
Theorem extracted_credentials_are_in_the_reply (join_data : json) :
  (forall t, fst (extract_livekit_creds join_data) = Some t ->
     In t (strings_of join_data) /\ count "." t = 2 /\ t <> "") /\
  (forall u, snd (extract_livekit_creds join_data) = Some u ->
     In u (strings_of join_data) /\ startswith "wss://" u = true /\ u <> "").
Proof.
  split; [apply extract_token_sound | apply extract_url_sound].
Qed.

Lemma extracted_credentials_are_in_the_reply_witness :
  In "a.b.c" (strings_of ExtractionSpec.room_payload) /\
  count "." "a.b.c" = 2 /\ "a.b.c" <> "".
Proof.
  destruct (extracted_credentials_are_in_the_reply
              ExtractionSpec.room_payload) as [H _].
  apply H. reflexivity.
Defined.

Lemma find_none_iff {A : Type} (p : A -> bool) (l : list A) :
  find p l = None <-> forall x, In x l -> p x = false.
Proof.
  split; [apply find_none|].
  induction l as [|x l IH]; simpl; [reflexivity|]. intros H.
  rewrite (H x) by now left. apply IH. intros y Hy. apply H. now right.
Qed.

(** X7.  [extract_livekit_creds] returns no URL exactly when no string
    value of the reply starts with "wss://", and no token exactly when no
    prioritized path holds a string with two periods and [jwt_re] matches
    no string value of the reply. *)
Theorem extraction_misses_only_what_is_absent (join_data : json) :
  (snd (extract_livekit_creds join_data) = None <->
   forall s, In s (strings_of join_data) -> startswith "wss://" s = false) /\
  (fst (extract_livekit_creds join_data) = None <->
   token_by_paths join_data = None /\
   forall s, In s (strings_of join_data) -> jwt_re_match s = false).
Proof.
  split.
  - rewrite extract_url.
    destruct (url_by_paths join_data) as [u|] eqn:Ep.
    + apply first_on_paths_ok in Ep as [Hok Hin]. split; [discriminate|].
      intros H. unfold is_wss in Hok. rewrite (H u Hin) in Hok.
      discriminate.
    + rewrite _find_first_wss_find. apply find_none_iff.
  - rewrite extract_token.
    destruct (token_by_paths join_data) as [t|] eqn:Ep.
    + split; [discriminate | intros [H _]; discriminate].
    + rewrite _find_first_jwt_find, find_none_iff. tauto.
Qed.

Lemma extraction_misses_only_what_is_absent_witness :
  snd (extract_livekit_creds (JObject [("status", JString "a.b")])) = None.
Proof.
  destruct (extraction_misses_only_what_is_absent
              (JObject [("status", JString "a.b")])) as [[_ H] _].
  apply H. intros s [<- | []]. reflexivity.
Defined.

End ExtractionMore.

(** ** The session endpoint on every configuration *)

Module SessionMore.
Import PyStr Json Broker PyStrFacts JsonFacts BrokerFacts SessionSpec.
Import ExtractionMore.

Lemma truthy_false (s : string) : PyStr.truthy s = false <-> s = "".
Proof. destruct s; simpl; split; congruence. Qed.

Lemma truthy_true (s : string) : PyStr.truthy s = true <-> s <> "".
Proof. destruct s; simpl; split; congruence. Qed.

(** The status of an answer, 200 for the credentials. *)
Definition status_of (r : session_response) : Z :=
  match r with
  | Credentials _ _ _ => 200%Z
  | ErrorResponse status _ _ => status
  end.

(** The labels of the settings that are empty, in the order the handler
    tests them. *)
Definition missing_fields (bootstrap_url agent_id salesforce_endpoint : string)
  : list string :=
  map fst
    (List.filter (fun p => negb (PyStr.truthy (snd p)))
       [("Bootstrap URL", bootstrap_url); ("Agent ID", agent_id);
        ("Salesforce Endpoint", salesforce_endpoint)]).

(** [config] with every absent or empty setting replaced by its fallback. *)
Definition resolved (B A D S : string) (config : session_config)
  : session_config :=
  {| bootstrapUrl := Some (field_or (bootstrapUrl config) B);
     agentId := Some (field_or (agentId config) A);
     domainUrl := Some (field_or (domainUrl config) D);
     salesforceEndpoint := Some (field_or (salesforceEndpoint config) S);
     userId := userId config |}.

Lemma field_or_empty (field : option string) (fallback : string) :
  field_or field fallback = "" -> fallback = "".
Proof.
  destruct field as [s|]; simpl; [|auto]. unfold str_or.
  destruct (PyStr.truthy s) eqn:E; [|auto].
  intros ->. discriminate E.
Qed.

Lemma str_or_fallback (x fallback : string) :
  (x = "" -> fallback = "") -> str_or x fallback = x.
Proof.
  unfold str_or. destruct (PyStr.truthy x) eqn:E; [reflexivity|].
  apply truthy_false in E. intros H. rewrite (H E). now symmetry.
Qed.

Lemma str_or_idem (x : string) : str_or x "" = x.
Proof. now destruct x. Qed.

Section Runs.

Variables BOOTSTRAP_URL_TEMPLATE AGENT_ID DOMAIN_URL SALESFORCE_ENDPOINT
  : string.
Variable str_format : string -> string -> option string.
Variable py_repr : json -> string.
Variable upstream : nat -> http_request -> http_reply.

Let start (config : session_config) :=
  start_session BOOTSTRAP_URL_TEMPLATE AGENT_ID DOMAIN_URL
    SALESFORCE_ENDPOINT str_format py_repr upstream config.

Let laid := laid_out DOMAIN_URL py_repr upstream.

(** The three ways a run of the endpoint can go. *)
Lemma start_session_cases (config : session_config) :
  let bootstrap_url := field_or (bootstrapUrl config) BOOTSTRAP_URL_TEMPLATE in
  let agent_id := field_or (agentId config) AGENT_ID in
  let domain_url := field_or (domainUrl config) DOMAIN_URL in
  let salesforce_endpoint :=
    field_or (salesforceEndpoint config) SALESFORCE_ENDPOINT in
  (missing_fields bootstrap_url agent_id salesforce_endpoint <> [] /\
   start config =
   (ErrorResponse 400
      (MissingConfiguration
         (missing_fields bootstrap_url agent_id salesforce_endpoint)) None,
    [])) \/
  (missing_fields bootstrap_url agent_id salesforce_endpoint = [] /\
   str_format bootstrap_url agent_id = None /\
   start config = (ErrorResponse 500 UnexpectedError None, [])) \/
  (missing_fields bootstrap_url agent_id salesforce_endpoint = [] /\
   exists url,
     str_format bootstrap_url agent_id = Some url /\
     start config = laid url agent_id domain_url salesforce_endpoint).
Proof.
  intros bootstrap_url agent_id domain_url salesforce_endpoint.
  unfold start, start_session, missing_fields.
  fold bootstrap_url agent_id domain_url salesforce_endpoint. simpl.
  destruct (PyStr.truthy bootstrap_url) eqn:Hb,
           (PyStr.truthy agent_id) eqn:Ha,
           (PyStr.truthy salesforce_endpoint) eqn:He; simpl;
    try (left; split; [discriminate | reflexivity]).
  right.
  destruct (str_format bootstrap_url agent_id) as [url|] eqn:Hf.
  - right. split; [reflexivity|]. exists url. split; [reflexivity|].
    now apply session_steps_laid_out.
  - left. split; [reflexivity|]. split; [reflexivity|].
    unfold session_steps, get_bootstrap_token.
    rewrite !(str_or_truthy bootstrap_url), !(str_or_truthy agent_id)
      by assumption.
    rewrite Hb, Ha, Hf. reflexivity.
Qed.

Lemma handle_raised (e : exn) :
  handle (Raised e) =
  ErrorResponse (match e with RequestException => 502 | _ => 500 end)
    (match e with RequestException => ApiRequestFailed
                | _ => UnexpectedError end) None.
Proof. now destruct e. Qed.

Lemma py_get_raised (v : json) (key : string) (e : exn) :
  py_get v key = Raised e ->
  e = AttributeError /\ forall members, v <> JObject members.
Proof.
  destruct v; simpl; intros [= <-]; split; try reflexivity; discriminate.
Qed.

(** The access token the handler goes on with. *)
Lemma access_token_in_inr (token_data tok : json) :
  access_token_in token_data = inr tok ->
  exists members,
    token_data = JObject members /\
    truthy tok = true /\ sliceable tok = true /\
    let snake := default JNull (dict_get "access_token" members) in
    let camel := default JNull (dict_get "accessToken" members) in
    tok = if truthy snake then snake else camel.
Proof.
  unfold access_token_in.
  destruct token_data as [| | | | |members]; try discriminate.
  exists members. split; [reflexivity|]. revert H. simpl.
  change (match dict_get "access_token" members with
          | Some x => x | None => JNull end)
    with (default JNull (dict_get "access_token" members)).
  change (match dict_get "accessToken" members with
          | Some x => x | None => JNull end)
    with (default JNull (dict_get "accessToken" members)).
  destruct (truthy (default JNull (dict_get "access_token" members)))
    eqn:Esnake.
  - rewrite Esnake. simpl.
    destruct (sliceable _) eqn:Es; [|discriminate].
    intros [= <-]. auto.
  - destruct (truthy (default JNull (dict_get "accessToken" members)))
      eqn:Ecamel; simpl; [|discriminate].
    destruct (sliceable _) eqn:Es; [|discriminate].
    intros [= <-]. auto.
Qed.

(** The answers the handler stops with at the bootstrap reply. *)
Lemma access_token_in_inl (token_data : json) (r : session_response) :
  access_token_in token_data = inl r ->
  r = ErrorResponse 500 AccessTokenNotFound None \/
  r = ErrorResponse 500 UnexpectedError None.
Proof.
  unfold access_token_in.
  destruct (py_get token_data "access_token") as [snake|e] eqn:E1.
  2: { apply py_get_raised in E1 as [-> _]. intros [= <-]. now right. }
  destruct (if truthy snake then Done snake
            else py_get token_data "accessToken") as [tok|e] eqn:E2.
  2: { destruct (truthy snake); [discriminate|].
       apply py_get_raised in E2 as [-> _]. intros [= <-]. now right. }
  destruct (truthy tok); simpl; [|intros [= <-]; now left].
  destruct (sliceable tok); [discriminate | intros [= <-]; now right].
Qed.

Lemma session_id_in_inl (session_data : json) (r : session_response) :
  session_id_in session_data = inl r ->
  r = ErrorResponse 500 SessionIdNotFound None \/
  r = ErrorResponse 500 UnexpectedError None.
Proof.
  unfold session_id_in.
  destruct (py_get session_data "sessionId") as [sid|e] eqn:E1.
  2: { apply py_get_raised in E1 as [-> _]. intros [= <-]. now right. }
  destruct (truthy sid); simpl; [discriminate | intros [= <-]; now left].
Qed.

Lemma answer_from_join_cases (sid join_data : json) :
  (exists u t, answer_from_join sid join_data = Credentials sid u t /\
               extract_livekit_creds join_data = (Some t, Some u)) \/
  answer_from_join sid join_data =
  ErrorResponse 500 CredentialsNotFound (Some join_data).
Proof.
  unfold answer_from_join.
  destruct (extract_livekit_creds join_data) as [[t|] [u|]]; simpl; auto.
  destruct (PyStr.truthy t), (PyStr.truthy u); simpl; eauto.
Qed.

(** How a run that got past the configuration went: which call was the
    last, and what came of it. *)
Inductive ending (url agent_id domain_url salesforce_endpoint : string)
  : session_response -> list http_request -> Prop :=
| bootstrap_failed e :
    upstream 0 (bootstrap_request DOMAIN_URL url domain_url) = Failed e ->
    ending url agent_id domain_url salesforce_endpoint
      (handle (Raised e)) [bootstrap_request DOMAIN_URL url domain_url]
| bootstrap_refused token_data r :
    upstream 0 (bootstrap_request DOMAIN_URL url domain_url)
      = Replied token_data ->
    access_token_in token_data = inl r ->
    ending url agent_id domain_url salesforce_endpoint
      r [bootstrap_request DOMAIN_URL url domain_url]
| create_failed token_data tok e :
    upstream 0 (bootstrap_request DOMAIN_URL url domain_url)
      = Replied token_data ->
    access_token_in token_data = inr tok ->
    upstream 1 (create_request DOMAIN_URL py_repr agent_id
                  salesforce_endpoint domain_url tok) = Failed e ->
    ending url agent_id domain_url salesforce_endpoint
      (handle (Raised e))
      [bootstrap_request DOMAIN_URL url domain_url;
       create_request DOMAIN_URL py_repr agent_id salesforce_endpoint
         domain_url tok]
| create_refused token_data tok session_data r :
    upstream 0 (bootstrap_request DOMAIN_URL url domain_url)
      = Replied token_data ->
    access_token_in token_data = inr tok ->
    upstream 1 (create_request DOMAIN_URL py_repr agent_id
                  salesforce_endpoint domain_url tok)
      = Replied session_data ->
    session_id_in session_data = inl r ->
    ending url agent_id domain_url salesforce_endpoint
      r
      [bootstrap_request DOMAIN_URL url domain_url;
       create_request DOMAIN_URL py_repr agent_id salesforce_endpoint
         domain_url tok]
| join_failed token_data tok session_data sid e :
    upstream 0 (bootstrap_request DOMAIN_URL url domain_url)
      = Replied token_data ->
    access_token_in token_data = inr tok ->
    upstream 1 (create_request DOMAIN_URL py_repr agent_id
                  salesforce_endpoint domain_url tok)
      = Replied session_data ->
    session_id_in session_data = inr sid ->
    upstream 2 (join_request DOMAIN_URL py_repr salesforce_endpoint
                  domain_url tok sid) = Failed e ->
    ending url agent_id domain_url salesforce_endpoint
      (handle (Raised e))
      [bootstrap_request DOMAIN_URL url domain_url;
       create_request DOMAIN_URL py_repr agent_id salesforce_endpoint
         domain_url tok;
       join_request DOMAIN_URL py_repr salesforce_endpoint domain_url tok sid]
| join_replied token_data tok session_data sid join_data :
    upstream 0 (bootstrap_request DOMAIN_URL url domain_url)
      = Replied token_data ->
    access_token_in token_data = inr tok ->
    upstream 1 (create_request DOMAIN_URL py_repr agent_id
                  salesforce_endpoint domain_url tok)
      = Replied session_data ->
    session_id_in session_data = inr sid ->
    upstream 2 (join_request DOMAIN_URL py_repr salesforce_endpoint
                  domain_url tok sid) = Replied join_data ->
    ending url agent_id domain_url salesforce_endpoint
      (answer_from_join sid join_data)
      [bootstrap_request DOMAIN_URL url domain_url;
       create_request DOMAIN_URL py_repr agent_id salesforce_endpoint
         domain_url tok;
       join_request DOMAIN_URL py_repr salesforce_endpoint domain_url tok sid].

Lemma laid_out_ending (url agent_id domain_url salesforce_endpoint : string) :
  ending url agent_id domain_url salesforce_endpoint
    (fst (laid url agent_id domain_url salesforce_endpoint))
    (snd (laid url agent_id domain_url salesforce_endpoint)).
Proof.
  unfold laid, laid_out.
  destruct (upstream 0 _) as [token_data|e0] eqn:E0;
    [|now apply bootstrap_failed].
  destruct (access_token_in token_data) as [r|tok] eqn:Etok;
    [now apply (bootstrap_refused _ _ _ _ token_data)|].
  destruct (upstream 1 _) as [session_data|e1] eqn:E1;
    [|now apply (create_failed _ _ _ _ token_data)].
  destruct (session_id_in session_data) as [r|sid] eqn:Esid;
    [now apply (create_refused _ _ _ _ token_data tok session_data)|].
  simpl.
  destruct (upstream 2 _) as [join_data|e2] eqn:E2.
  - now apply (join_replied _ _ _ _ token_data tok session_data).
  - now apply (join_failed _ _ _ _ token_data tok session_data).
Qed.

Lemma missing_fields_nil (b a e : string) :
  missing_fields b a e = [] <-> b <> "" /\ a <> "" /\ e <> "".
Proof.
  unfold missing_fields. destruct b, a, e; simpl; split;
    try discriminate; try (intros (H1 & H2 & H3); congruence); auto.
Qed.

Lemma ending_status url a d e r log :
  ending url a d e r log ->
  status_of r = 200%Z \/ status_of r = 500%Z \/ status_of r = 502%Z.
Proof.
  intros [e0 _ | td r0 _ H | td tok e1 _ _ _ | td tok sd r0 _ _ _ H
         | td tok sd sid e2 _ _ _ _ _ | td tok sd sid jd _ _ _ _ _];
    try (rewrite handle_raised; destruct e0 || destruct e1 || destruct e2;
         simpl; auto).
  - apply access_token_in_inl in H as [-> | ->]; simpl; auto.
  - apply session_id_in_inl in H as [-> | ->]; simpl; auto.
  - destruct (answer_from_join_cases sid jd) as [(u & t & -> & _) | ->];
      simpl; auto.
Qed.

(** X8.  The endpoint answers 400 exactly when the bootstrap URL, the agent
    id or the Salesforce endpoint is empty after the fallback to the
    environment; the answer then names the empty ones, in this order, and
    no request is sent upstream.  The domain URL is not required. *)
Theorem missing_settings_answer_400 (config : session_config) :
  let bootstrap_url := field_or (bootstrapUrl config) BOOTSTRAP_URL_TEMPLATE in
  let agent_id := field_or (agentId config) AGENT_ID in
  let salesforce_endpoint :=
    field_or (salesforceEndpoint config) SALESFORCE_ENDPOINT in
  let missing := missing_fields bootstrap_url agent_id salesforce_endpoint in
  (status_of (fst (start config)) = 400%Z <->
   bootstrap_url = "" \/ agent_id = "" \/ salesforce_endpoint = "") /\
  (status_of (fst (start config)) = 400%Z ->
   missing <> [] /\
   start config = (ErrorResponse 400 (MissingConfiguration missing) None, [])).
Proof.
  intros bootstrap_url agent_id salesforce_endpoint missing.
  pose proof (missing_fields_nil bootstrap_url agent_id salesforce_endpoint)
    as Hnil. fold missing in Hnil.
  destruct (start_session_cases config)
    as [[Hm Hrun] | [(Hm & _ & Hrun) | (Hm & url & _ & Hrun)]];
    fold bootstrap_url agent_id salesforce_endpoint missing in Hm, Hrun;
    rewrite Hrun.
  - simpl. split; [|auto]. split; [|reflexivity]. intros _.
    destruct (string_dec bootstrap_url "") as [|Hb]; [auto|].
    destruct (string_dec agent_id "") as [|Ha]; [auto|].
    destruct (string_dec salesforce_endpoint "") as [|He]; [auto|].
    destruct Hm. apply Hnil. auto.
  - simpl. apply Hnil in Hm as (Hb & Ha & He).
    split; [|discriminate]. split; [discriminate | tauto].
  - apply Hnil in Hm as (Hb & Ha & He).
    pose proof (ending_status _ _ _ _ _ _ (laid_out_ending url agent_id
      (field_or (domainUrl config) DOMAIN_URL) salesforce_endpoint)) as Hs.
    split; [split; [lia | tauto] | lia].
Qed.

(** X9.  When a request the endpoint sent fails, the answer is 502 for a
    [RequestException] and 500 for any other exception; and a 502 is
    answered only then: the last request sent failed with a
    [RequestException]. *)
Theorem upstream_failure_status (config : session_config) :
  (forall n rq e,
     snd (start config) !! n = Some rq -> upstream n rq = Failed e ->
     fst (start config) =
     ErrorResponse (match e with RequestException => 502 | _ => 500 end)
       (match e with RequestException => ApiRequestFailed
                   | _ => UnexpectedError end) None) /\
  (status_of (fst (start config)) = 502%Z ->
   fst (start config) = ErrorResponse 502 ApiRequestFailed None /\
   exists n rq,
     length (snd (start config)) = S n /\
     snd (start config) !! n = Some rq /\
     upstream n rq = Failed RequestException).
Proof.
  destruct (start_session_cases config)
    as [[_ Hrun] | [(_ & _ & Hrun) | (_ & url & _ & Hrun)]]; rewrite Hrun;
    clear Hrun.
  - split; [intros n rq e [=] | discriminate].
  - split; [intros n rq e [=] | discriminate].
  - pose proof (laid_out_ending url
      (field_or (agentId config) AGENT_ID)
      (field_or (domainUrl config) DOMAIN_URL)
      (field_or (salesforceEndpoint config) SALESFORCE_ENDPOINT)) as Hend.
    destruct Hend as [e0 H0 | td r0 H0 Ht | td tok e1 H0 Ht H1
         | td tok sd r0 H0 Ht H1 Hs | td tok sd sid e2 H0 Ht H1 Hs H2
         | td tok sd sid jd H0 Ht H1 Hs H2]; split.
    + intros [|n] rq e [= <-]. rewrite H0. intros [= <-].
      apply handle_raised.
    + rewrite handle_raised. destruct e0; try discriminate.
      intros _. split; [reflexivity|]. exists 0%nat. eauto.
    + intros [|n] rq e [= <-]. congruence.
    + apply access_token_in_inl in Ht as [-> | ->]; discriminate.
    + intros [|[|n]] rq e [= <-]; [congruence|]. rewrite H1. intros [= <-].
      apply handle_raised.
    + rewrite handle_raised. destruct e1; try discriminate.
      intros _. split; [reflexivity|]. exists 1%nat. eauto.
    + intros [|[|n]] rq e [= <-]; congruence.
    + apply session_id_in_inl in Hs as [-> | ->]; discriminate.
    + intros [|[|[|n]]] rq e [= <-]; try congruence. rewrite H2.
      intros [= <-]. apply handle_raised.
    + rewrite handle_raised. destruct e2; try discriminate.
      intros _. split; [reflexivity|]. exists 2%nat. eauto.
    + intros [|[|[|n]]] rq e [= <-]; congruence.
    + destruct (answer_from_join_cases sid jd) as [(u & t & -> & _) | ->];
        discriminate.
Qed.

(** X10.  Credentials are answered only after all three calls replied: the
    session id is the truthy [sessionId] of the create reply, the access
    token that the create and join requests carry is the truthy
    [access_token], else [accessToken], of the bootstrap reply, the token
    answered is a string of the join reply with exactly two periods, and the
    URL answered is a string of the join reply that starts with "wss://". *)
Theorem credentials_come_from_the_replies (config : session_config)
    (sid : json) (u t : string) :
  let bootstrap_url := field_or (bootstrapUrl config) BOOTSTRAP_URL_TEMPLATE in
  let agent_id := field_or (agentId config) AGENT_ID in
  let domain_url := field_or (domainUrl config) DOMAIN_URL in
  let salesforce_endpoint :=
    field_or (salesforceEndpoint config) SALESFORCE_ENDPOINT in
  fst (start config) = Credentials sid u t ->
  exists url members tok session_data join_data,
    str_format bootstrap_url agent_id = Some url /\
    let b := bootstrap_request DOMAIN_URL url domain_url in
    let c := create_request DOMAIN_URL py_repr agent_id salesforce_endpoint
               domain_url tok in
    let j := join_request DOMAIN_URL py_repr salesforce_endpoint domain_url
               tok sid in
    snd (start config) = [b; c; j] /\
    upstream 0 b = Replied (JObject members) /\
    tok = (if truthy (default JNull (dict_get "access_token" members))
           then default JNull (dict_get "access_token" members)
           else default JNull (dict_get "accessToken" members)) /\
    truthy tok = true /\
    upstream 1 c = Replied session_data /\
    py_get session_data "sessionId" = Done sid /\ truthy sid = true /\
    upstream 2 j = Replied join_data /\
    extract_livekit_creds join_data = (Some t, Some u) /\
    In t (strings_of join_data) /\ count "." t = 2 /\
    In u (strings_of join_data) /\ startswith "wss://" u = true.
Proof.
  intros bootstrap_url agent_id domain_url salesforce_endpoint.
  destruct (start_session_cases config)
    as [[_ Hrun] | [(_ & _ & Hrun) | (_ & url & Hf & Hrun)]]; rewrite Hrun;
    try discriminate.
  fold bootstrap_url agent_id domain_url salesforce_endpoint in Hf |- *.
  clear Hrun.
  pose proof (laid_out_ending url agent_id domain_url salesforce_endpoint)
    as Hend.
  destruct Hend as [e0 H0 | td r0 H0 Ht | td tok e1 H0 Ht H1
       | td tok sd r0 H0 Ht H1 Hs | td tok sd sid' e2 H0 Ht H1 Hs H2
       | td tok sd sid' jd H0 Ht H1 Hs H2];
    try (rewrite handle_raised; discriminate).
  - apply access_token_in_inl in Ht as [-> | ->]; discriminate.
  - apply session_id_in_inl in Hs as [-> | ->]; discriminate.
  - destruct (answer_from_join_cases sid' jd) as [(u' & t' & -> & Hx) | ->];
      [|discriminate].
    intros [= -> -> ->].
    apply access_token_in_inr in Ht as (members & -> & Htok & _ & Hsel).
    apply session_id_in_truthy in Hs as [Hget Hsid].
    destruct (extract_token_sound jd t) as (Ht1 & Ht2 & _);
      [now rewrite Hx|].
    destruct (extract_url_sound jd u) as (Hu1 & Hu2 & _);
      [now rewrite Hx|].
    exists url, members, tok, sd, jd. simpl. repeat split; assumption.
Qed.

(** X11.  The bootstrap reply is read by its key [access_token] first and
    [accessToken] second: a non-empty string under the first is the bearer
    of the create request whatever the second holds; the second is used
    when the first is absent, [None] or empty; with neither the endpoint
    answers 500, access token not found, after the one request. *)
Theorem bootstrap_reply_keys (config : session_config) (url : string)
    (members : list (string * json)) :
  let bootstrap_url := field_or (bootstrapUrl config) BOOTSTRAP_URL_TEMPLATE in
  let agent_id := field_or (agentId config) AGENT_ID in
  let domain_url := field_or (domainUrl config) DOMAIN_URL in
  let salesforce_endpoint :=
    field_or (salesforceEndpoint config) SALESFORCE_ENDPOINT in
  let b := bootstrap_request DOMAIN_URL url domain_url in
  let c := create_request DOMAIN_URL py_repr agent_id salesforce_endpoint
             domain_url in
  let snake := default JNull (dict_get "access_token" members) in
  let camel := default JNull (dict_get "accessToken" members) in
  bootstrap_url <> "" -> agent_id <> "" -> salesforce_endpoint <> "" ->
  str_format bootstrap_url agent_id = Some url ->
  upstream 0 b = Replied (JObject members) ->
  (forall a, snake = JString a -> a <> "" ->
     snd (start config) !! 1%nat = Some (c (JString a))) /\
  (forall a, truthy snake = false -> camel = JString a -> a <> "" ->
     snd (start config) !! 1%nat = Some (c (JString a))) /\
  (truthy snake = false -> truthy camel = false ->
   start config = (ErrorResponse 500 AccessTokenNotFound None, [b])).
Proof.
  intros bootstrap_url agent_id domain_url salesforce_endpoint b c snake
    camel Hb Ha He Hf H0.
  assert (Hrun : start config =
                 laid url agent_id domain_url salesforce_endpoint).
  { unfold start, start_session.
    fold bootstrap_url agent_id domain_url salesforce_endpoint.
    apply truthy_true in Hb, Ha, He. rewrite Hb, Ha, He. simpl.
    now apply session_steps_laid_out. }
  rewrite Hrun. unfold laid, laid_out. fold b. rewrite H0.
  unfold access_token_in, py_get.
  change (match dict_get "access_token" members with
          | Some x => x | None => JNull end) with snake.
  change (match dict_get "accessToken" members with
          | Some x => x | None => JNull end) with camel.
  clearbody snake camel.
  repeat split.
  - intros a -> Hne. destruct a as [|x a]; [congruence|]. simpl.
    fold (c (JString (String x a))). destruct (upstream 1 _) as [sd|e]; [|reflexivity].
    now destruct (session_id_in sd).
  - intros a -> -> Hne. destruct a as [|x a]; [congruence|]. simpl.
    fold (c (JString (String x a))). destruct (upstream 1 _) as [sd|e]; [|reflexivity].
    now destruct (session_id_in sd).
  - intros -> ->. reflexivity.
Qed.

(** X12.  A bootstrap reply that is not a JSON object, or whose access
    token is a true value other than a string or a list, ends the run after
    the one request with 500, unexpected error: the handler calls [.get] on
    the reply and slices the token before it goes on. *)
Theorem odd_bootstrap_reply_is_unexpected_error (config : session_config)
    (url : string) (token_data : json) :
  let bootstrap_url := field_or (bootstrapUrl config) BOOTSTRAP_URL_TEMPLATE in
  let agent_id := field_or (agentId config) AGENT_ID in
  let domain_url := field_or (domainUrl config) DOMAIN_URL in
  let salesforce_endpoint :=
    field_or (salesforceEndpoint config) SALESFORCE_ENDPOINT in
  let b := bootstrap_request DOMAIN_URL url domain_url in
  bootstrap_url <> "" -> agent_id <> "" -> salesforce_endpoint <> "" ->
  str_format bootstrap_url agent_id = Some url ->
  upstream 0 b = Replied token_data ->
  (forall members, token_data <> JObject members) \/
  (exists members tok,
     token_data = JObject members /\
     tok = (if truthy (default JNull (dict_get "access_token" members))
            then default JNull (dict_get "access_token" members)
            else default JNull (dict_get "accessToken" members)) /\
     truthy tok = true /\ sliceable tok = false) ->
  start config = (ErrorResponse 500 UnexpectedError None, [b]).
Proof.
  intros bootstrap_url agent_id domain_url salesforce_endpoint b
    Hb Ha He Hf H0 Hodd.
  assert (Hrun : start config =
                 laid url agent_id domain_url salesforce_endpoint).
  { unfold start, start_session.
    fold bootstrap_url agent_id domain_url salesforce_endpoint.
    apply truthy_true in Hb, Ha, He. rewrite Hb, Ha, He. simpl.
    now apply session_steps_laid_out. }
  rewrite Hrun. unfold laid, laid_out. fold b. rewrite H0.
  unfold access_token_in.
  destruct Hodd as [Hnot | (members & tok & -> & Hsel & Htok & Hsl)].
  - destruct token_data; try reflexivity. now destruct (Hnot members).
  - unfold py_get.
    change (match dict_get "access_token" members with
            | Some x => x | None => JNull end)
      with (default JNull (dict_get "access_token" members)).
    change (match dict_get "accessToken" members with
            | Some x => x | None => JNull end)
      with (default JNull (dict_get "accessToken" members)).
    destruct (truthy (default JNull (dict_get "access_token" members)))
      eqn:Esnake; subst tok.
    + now rewrite Esnake, Hsl.
    + now rewrite Htok, Hsl.
Qed.

End Runs.

(** X13.  The fallbacks inside the three helper functions never apply when
    the endpoint calls them: a run with the environment in force equals the
    run, with an empty environment, on the request in which every absent or
    empty setting was replaced by the environment's value. *)
Theorem environment_only_fills_the_request
    (B A D S : string) (str_format : string -> string -> option string)
    (py_repr : json -> string) (upstream : nat -> http_request -> http_reply)
    (config : session_config) :
  start_session B A D S str_format py_repr upstream config =
  start_session "" "" "" "" str_format py_repr upstream
    (resolved B A D S config).
Proof.
  unfold start_session, resolved. simpl.
  rewrite !str_or_idem.
  set (bootstrap_url := field_or (bootstrapUrl config) B).
  set (agent_id := field_or (agentId config) A).
  set (domain_url := field_or (domainUrl config) D).
  set (salesforce_endpoint := field_or (salesforceEndpoint config) S).
  destruct (PyStr.truthy bootstrap_url) eqn:Hb; [|reflexivity].
  destruct (PyStr.truthy agent_id) eqn:Ha; [|reflexivity].
  destruct (PyStr.truthy salesforce_endpoint) eqn:He; [|reflexivity].
  simpl.
  assert (Hd : str_or domain_url D = domain_url).
  { apply str_or_fallback. unfold domain_url. apply field_or_empty. }
  unfold session_steps, get_bootstrap_token, create_session,
    join_realtime_session.
  rewrite !str_or_idem, Hd.
  rewrite !(str_or_truthy bootstrap_url), !(str_or_truthy agent_id),
    !(str_or_truthy salesforce_endpoint) by assumption.
  reflexivity.
Qed.

(** Upstream fails the second call with a transport error. *)
Definition create_fails (n : nat) (rq : http_request) : http_reply :=
  match n with
  | 0 => Replied (JObject [("access_token", JString "");
                           ("accessToken", JString "bearer")])
  | _ => Failed RequestException
  end.

(** Upstream answers the bootstrap call with a number for a token. *)
Definition numeric_token (n : nat) (rq : http_request) : http_reply :=
  Replied (JObject [("access_token", JNumber 7)]).

Definition run_with (upstream : nat -> http_request -> http_reply)
    (config : session_config) : session_response * list http_request :=
  start_session "https://site/bootstrap" "agent" "https://site"
    "https://api" (fun template _ => Some template) (fun _ => "")
    upstream config.

Definition no_agent : session_config :=
  {| bootstrapUrl := None; agentId := None; domainUrl := None;
     salesforceEndpoint := None; userId := None |}.

Lemma missing_settings_answer_400_witness :
  start_session "https://site/bootstrap" "" "" "" (fun t _ => Some t)
    (fun _ => "") sample_upstream no_agent =
  (ErrorResponse 400
     (MissingConfiguration ["Agent ID"; "Salesforce Endpoint"]) None, []).
Proof.
  destruct (missing_settings_answer_400 "https://site/bootstrap" "" "" ""
              (fun t _ => Some t) (fun _ => "") sample_upstream no_agent)
    as [_ H].
  destruct H as [_ H]; [reflexivity | exact H].
Defined.

Lemma upstream_failure_status_witness :
  fst (run_with create_fails no_settings) =
  ErrorResponse 502 ApiRequestFailed None.
Proof.
  destruct (upstream_failure_status "https://site/bootstrap" "agent"
              "https://site" "https://api" (fun template _ => Some template)
              (fun _ => "") create_fails no_settings) as [H _].
  apply (H 1%nat
           {| http_verb := POST;
              http_url :=
                "https://api/einstein/ai-agent/v1.1/agents/agent/sessions";
              http_origin := "https://site";
              http_authorization := Some "Bearer bearer" |}
           RequestException); reflexivity.
Defined.

Lemma credentials_come_from_the_replies_witness :
  exists join_data,
    sample_upstream 2
      {| http_verb := POST;
         http_url :=
           "https://api/einstein/ai-agent/v1.1/realtime/sessions/s-1/join";
         http_origin := "https://site";
         http_authorization := Some "Bearer bearer" |} = Replied join_data /\
    In "a.b.c" (strings_of join_data) /\ In "wss://x" (strings_of join_data).
Proof.
  destruct (credentials_come_from_the_replies "https://site/bootstrap"
              "agent" "https://site" "https://api"
              (fun template _ => Some template) (fun _ => "") sample_upstream
              no_settings (JString "s-1") "wss://x" "a.b.c" eq_refl)
    as (url & members & tok & sd & jd & Hf & Hlog & H0 & Htok & _ & H1 & Hsid
        & _ & H2 & _ & Ht & _ & Hu & _).
  exists jd. simpl in Hf. injection Hf as <-.
  simpl in H0. injection H0 as <-. simpl in Htok. subst tok.
  simpl in H1. injection H1 as <-. auto.
Defined.

Lemma bootstrap_reply_keys_witness :
  snd (run_with create_fails no_settings) !! 1%nat =
  Some {| http_verb := POST;
          http_url :=
            "https://api/einstein/ai-agent/v1.1/agents/agent/sessions";
          http_origin := "https://site";
          http_authorization := Some "Bearer bearer" |}.
Proof.
  pose proof (bootstrap_reply_keys "https://site/bootstrap" "agent"
                "https://site" "https://api"
                (fun template _ => Some template) (fun _ => "") create_fails
                no_settings "https://site/bootstrap"
                [("access_token", JString "");
                 ("accessToken", JString "bearer")]) as H.
  cbv zeta in H.
  destruct H as (_ & H & _);
    [discriminate | discriminate | discriminate | reflexivity | reflexivity |].
  apply (H "bearer"); [reflexivity | reflexivity | discriminate].
Defined.

Lemma odd_bootstrap_reply_is_unexpected_error_witness :
  run_with numeric_token no_settings =
  (ErrorResponse 500 UnexpectedError None,
   [ {| http_verb := GET; http_url := "https://site/bootstrap";
        http_origin := "https://site"; http_authorization := None |} ]).
Proof.
  apply (odd_bootstrap_reply_is_unexpected_error "https://site/bootstrap"
           "agent" "https://site" "https://api"
           (fun template _ => Some template) (fun _ => "") numeric_token
           no_settings "https://site/bootstrap"
           (JObject [("access_token", JNumber 7)]));
    try discriminate; try reflexivity.
  right. exists [("access_token", JNumber 7)], (JNumber 7).
  repeat split.
Defined.

End SessionMore.

(** ** The relay: ids, bounds, arrivals *)

Module RelayMore.
Import Json Relay RelayFacts.

Implicit Types (queues : gmap string (list command_message)).
Implicit Types (q cmds : list command_message).

(** *** [str.strip] *)

Lemma lstrip_head (s : string) :
  PyStr.lstrip s = "" \/
  exists a r, PyStr.lstrip s = String a r /\ PyStr.isspace a = false.
Proof.
  induction s as [|a s IH]; simpl; [now left|].
  destruct (PyStr.isspace a) eqn:E; [exact IH | right; eauto].
Qed.

Lemma rstrip_idem (s : string) : PyStr.rstrip (PyStr.rstrip s) = PyStr.rstrip s.
Proof.
  induction s as [|a s IH]; simpl; [reflexivity|].
  destruct (PyStr.rstrip s) as [|b r] eqn:E.
  - destruct (PyStr.isspace a) eqn:Ea; simpl; [reflexivity|].
    now rewrite Ea.
  - simpl in IH |- *. now rewrite IH.
Qed.

Lemma rstrip_keeps_head (a : ascii) (r : string) :
  PyStr.isspace a = false ->
  exists r', PyStr.rstrip (String a r) = String a r'.
Proof.
  intros Ea. simpl. destruct (PyStr.rstrip r); [rewrite Ea|]; eauto.
Qed.

Lemma strip_idem (s : string) : PyStr.strip (PyStr.strip s) = PyStr.strip s.
Proof.
  unfold PyStr.strip.
  destruct (lstrip_head s) as [-> | (a & r & -> & Ea)]; [reflexivity|].
  destruct (rstrip_keeps_head a r Ea) as [r' Hr]. rewrite Hr.
  assert (Hl : PyStr.lstrip (String a r') = String a r')
    by (simpl; now rewrite Ea).
  rewrite Hl, <- Hr. apply rstrip_idem.
Qed.

Lemma lstrip_blank (s : string) :
  PyStr.all PyStr.isspace s = true -> PyStr.lstrip s = "".
Proof.
  induction s as [|a s IH]; simpl; [reflexivity|].
  intros [Ha Hs]%andb_true_iff. rewrite Ha. auto.
Qed.

(** X14.  The device id a handler works on is in normal form: stripping it
    again changes nothing, and sent back as the [deviceId] of a later
    request it names the same queue, unless it is empty.  An id made of
    white space only is the empty id, not "default-phone"; the empty id
    cannot be named by a later request, which gets "default-phone". *)
Theorem device_id_normal_form (field : option string) :
  let device_id := device_of field in
  PyStr.strip device_id = device_id /\
  (device_id <> "" -> device_of (Some device_id) = device_id) /\
  (forall s, field = Some s -> s <> "" ->
     PyStr.all PyStr.isspace s = true -> device_id = "") /\
  device_of (Some "") = "default-phone" /\
  device_of None = "default-phone".
Proof.
  intros device_id. repeat split.
  - apply strip_idem.
  - intros Hne. unfold device_of at 1. simpl. unfold Broker.str_or.
    destruct device_id eqn:E; [congruence|]. simpl. rewrite <- E.
    apply strip_idem.
  - intros s -> Hne Hblank. unfold device_id, device_of. simpl.
    unfold Broker.str_or. destruct s; [congruence|]. simpl PyStr.truthy.
    cbv iota. unfold PyStr.strip. now rewrite lstrip_blank.
Qed.

Lemma device_id_normal_form_witness :
  device_of (Some "  ") = "" /\ device_of (Some " kiosk ") = "kiosk" /\
  device_of (Some (device_of (Some " kiosk "))) = "kiosk".
Proof.
  destruct (device_id_normal_form (Some "  ")) as (_ & _ & H & _).
  destruct (device_id_normal_form (Some " kiosk ")) as (_ & H' & _).
  split; [apply (H "  "); [reflexivity | discriminate | reflexivity]|].
  split; [reflexivity | apply H'; discriminate].
Defined.

(** *** How many commands a poll hands out *)

Lemma drain_from_empty_bound (max_items : Z) q q1 cmds :
  drain max_items q [] = (q1, cmds) ->
  (Z.of_nat (length cmds) <= Z.max 0 max_items)%Z /\
  (cmds = [] -> q <> [] -> max_items <= 0)%Z.
Proof.
  rewrite drain_from_empty. intros [= <- <-]. split.
  - rewrite length_firstn. lia.
  - destruct q as [|m q]; [congruence|]. intros H _.
    destruct (Z.to_nat (Z.min max_items (Z.of_nat (length (m :: q)))))
      eqn:E; [|discriminate]. simpl length in E. lia.
Qed.

Lemma wait_loop_bound (w : world) (timeout_s : Q) (max_items : Z)
    (fuel k : nat) q q' cmds' (slept : nat) :
  wait_loop w timeout_s max_items fuel k q [] = Some (q', cmds', slept) ->
  (Z.of_nat (length cmds') <= Z.max 0 max_items)%Z.
Proof.
  revert k q. induction fuel as [|fuel IH]; intros k q; simpl;
    [discriminate|].
  destruct (Qltb _ _); [|intros [= <- <- <-]; simpl; lia].
  destruct q as [|m q0]; [apply IH|].
  destruct (drain max_items (m :: q0) []) as [q1 cmds1] eqn:Ed.
  intros [= <- <- <-]. now apply drain_from_empty_bound in Ed.
Qed.

(** X15.  A poll that returns hands out at most [max] commands, whichever
    way it returns, and none when [max] is zero or negative; the answer
    names the device the poll worked on. *)
Theorem poll_hands_out_at_most_max (w : world) (fuel : nat)
    (body : poll_body) queues queues' (r : poll_response) (slept : nat) :
  poll_commands w fuel body queues = Some (queues', r, slept) ->
  (Z.of_nat (length (resp_commands r))
   <= Z.max 0 (default 5 (poll_max body)))%Z /\
  resp_deviceId r = device_of (poll_deviceId body).
Proof.
  rewrite poll_commands_eq. simpl.
  destruct (drain _ _ _) as [q1 cmds] eqn:Ed.
  pose proof (drain_from_empty_bound _ _ _ _ Ed) as [Hb _].
  destruct (_ || _) eqn:Eor.
  - intros [= <- <- <-]. auto.
  - apply orb_false_iff in Eor as [Hc _].
    destruct cmds; [|discriminate].
    destruct (wait_loop _ _ _ _ _ _ _) as [[[q2 cmds2] n]|] eqn:Ew;
      [|discriminate].
    intros [= <- <- <-]. simpl. split; [|reflexivity].
    now apply wait_loop_bound in Ew.
Qed.

(** A poll with [max] zero against a queue that holds a command. *)
Definition poll_none : poll_body :=
  {| poll_deviceId := Some "kiosk"; poll_max := Some 0%Z; poll_wait := None;
     poll_timeout := None |}.

Lemma poll_hands_out_at_most_max_witness :
  exists queues' r slept,
    poll_commands slow_world 1 poll_none
      (<["kiosk" := [message "a" JNull]]> ∅) = Some (queues', r, slept) /\
    resp_commands r = [].
Proof.
  destruct (poll_commands slow_world 1 poll_none
              (<["kiosk" := [message "a" JNull]]> ∅))
    as [[[queues' r] slept]|] eqn:E; [|vm_compute in E; discriminate].
  exists queues', r, slept. split; [reflexivity|].
  apply poll_hands_out_at_most_max in E as [H _]. simpl in H.
  destruct (resp_commands r); [reflexivity | simpl in H; lia].
Defined.

(** *** Queues are created on first use and never removed *)

(** X16.  A poll that returns leaves a queue registered for its device,
    created empty if there was none, and an accepted command does the same
    for its device; no request removes a queue: the registered devices
    afterwards are those before and the device of the request. *)
Theorem queues_are_created_never_removed queues :
  (forall w fuel body queues' r slept,
     poll_commands w fuel body queues = Some (queues', r, slept) ->
     dom queues' = {[device_of (poll_deviceId body)]} ∪ dom queues) /\
  (forall body,
     command_of (cmd_command body) <> "" ->
     dom (fst (enqueue_command body queues)) =
     {[device_of (cmd_deviceId body)]} ∪ dom queues) /\
  (forall body,
     command_of (cmd_command body) = "" ->
     fst (enqueue_command body queues) = queues).
Proof.
  repeat split.
  - intros w fuel body queues' r slept H.
    apply poll_writes_own_queue in H as [q ->]. apply dom_insert_L.
  - intros body Hc. rewrite enqueue_command_eq. simpl.
    destruct (command_of (cmd_command body)); [congruence|]. simpl.
    apply dom_insert_L.
  - intros body Hc. rewrite enqueue_command_eq. simpl. now rewrite Hc.
Qed.

Lemma queues_are_created_never_removed_witness :
  exists queues' r slept,
    poll_commands slow_world 0 plain_poll ∅ = Some (queues', r, slept) /\
    dom queues' = {["kiosk"]} ∪ dom (∅ : gmap string (list command_message)).
Proof.
  destruct (queues_are_created_never_removed ∅) as (H & _).
  destruct (poll_commands slow_world 0 plain_poll ∅)
    as [[[queues' r] slept]|] eqn:E; [|vm_compute in E; discriminate].
  exists queues', r, slept. split; [reflexivity|].
  exact (H _ _ _ _ _ _ E).
Defined.

(** *** The long poll meets an arrival *)

Lemma wait_loop_quiet (w : world) (timeout_s : Q) (max_items : Z)
    (n : nat) :
  forall (k fuel : nat) cmds,
    (forall i, (k <= i < k + n)%nat -> arrivals w i = []) ->
    (forall i, (k <= i < k + n)%nat ->
               Qltb (clock w (S i) - clock w 0) timeout_s = true) ->
    wait_loop w timeout_s max_items (n + fuel) k [] cmds =
    wait_loop w timeout_s max_items fuel (k + n) [] cmds.
Proof.
  induction n as [|n IH]; intros k fuel cmds Hquiet Htime.
  - now rewrite Nat.add_0_r.
  - simpl. rewrite Htime, Hquiet by lia. simpl.
    rewrite IH; [f_equal; lia | |]; intros i Hi; [apply Hquiet | apply Htime];
      lia.
Qed.

(** X17.  A waiting poll whose queue is empty, with [max] positive, and
    whose first arrival comes during its sleep number [n]: if the clock
    read after that sleep is still within the timeout, the poll returns
    then, after [n + 1] sleeps, with the first [min(max, length)] of the
    arrived commands, and leaves the others queued; if that reading is past
    the timeout, the poll returns empty-handed and all the arrived commands
    stay queued. *)
Theorem long_poll_meets_arrival (w : world) (body : poll_body) queues
    (n : nat) (m : command_message) (ms : list command_message) :
  let device_id := device_of (poll_deviceId body) in
  let max_items := default 5%Z (poll_max body) in
  let timeout_s := default 25%Q (poll_timeout body) in
  let k := Z.to_nat (Z.min max_items (Z.of_nat (length (m :: ms)))) in
  queue_of device_id queues = [] ->
  poll_wait body <> Some false ->
  (0 < max_items)%Z ->
  (forall i, (i < n)%nat -> arrivals w i = []) ->
  arrivals w n = m :: ms ->
  (forall i, (i <= n)%nat -> (clock w (S i) - clock w 0 < timeout_s)%Q) ->
  forall fuel, (S n < fuel)%nat ->
    ((clock w (S (S n)) - clock w 0 < timeout_s)%Q ->
     poll_commands w fuel body queues =
     Some (<[device_id := skipn k (m :: ms)]> queues,
           {| resp_deviceId := device_id;
              resp_commands := firstn k (m :: ms) |}, S n)) /\
    ((timeout_s <= clock w (S (S n)) - clock w 0)%Q ->
     poll_commands w fuel body queues =
     Some (<[device_id := m :: ms]> queues,
           {| resp_deviceId := device_id; resp_commands := [] |}, S n)).
Proof.
  intros device_id max_items timeout_s k Hempty Hwait Hmax Hquiet Harr Htime
    fuel Hfuel.
  assert (Hw : default true (poll_wait body) = true).
  { destruct (poll_wait body) as [[|]|]; [reflexivity | congruence |
      reflexivity]. }
  assert (Hrun : poll_commands w fuel body queues =
    match wait_loop w timeout_s max_items (fuel - S n) (S n) (m :: ms) []
    with
    | None => None
    | Some (q2, cmds2, slept) =>
        Some (<[device_id := q2]> queues,
              {| resp_deviceId := device_id; resp_commands := cmds2 |}, slept)
    end).
  { rewrite poll_commands_eq. simpl.
    fold device_id max_items timeout_s. rewrite Hempty, Hw. simpl.
    replace fuel with (n + S (fuel - S n))%nat at 1 by lia.
    rewrite wait_loop_quiet.
    2: { intros i Hi. apply Hquiet. lia. }
    2: { intros i Hi. apply Qltb_lt, Htime. lia. }
    simpl. rewrite (proj2 (Qltb_lt _ _) (Htime n (Nat.le_refl n))), Harr.
    reflexivity. }
  rewrite Hrun. clear Hrun.
  destruct (fuel - S n)%nat as [|fuel'] eqn:Ef; [lia|].
  split; intros Hclock.
  - cbn [wait_loop]. rewrite (proj2 (Qltb_lt _ _) Hclock).
    rewrite (drain_from_empty max_items (m :: ms)). reflexivity.
  - cbn [wait_loop]. rewrite (proj2 (Qltb_ge _ _) Hclock). reflexivity.
Qed.

(** A command arrives during the first sleep; each sleep takes a second. *)
Definition one_arrival : world :=
  {| clock := fun k => inject_Z (Z.of_nat (Nat.pred k));
     arrivals := fun k => match k with
                          | 0 => [message "wave" JNull]
                          | _ => []
                          end |}.

Lemma long_poll_meets_arrival_witness :
  poll_commands one_arrival 2
    {| poll_deviceId := Some "kiosk"; poll_max := None; poll_wait := None;
       poll_timeout := None |} ∅ =
  Some (<["kiosk" := []]> ∅,
        {| resp_deviceId := "kiosk";
           resp_commands := [message "wave" JNull] |}, 1%nat).
Proof.
  pose proof (long_poll_meets_arrival one_arrival
                {| poll_deviceId := Some "kiosk"; poll_max := None;
                   poll_wait := None; poll_timeout := None |} ∅
                0 (message "wave" JNull) []) as H.
  cbv zeta in H.
  destruct (H eq_refl) with (fuel := 2%nat) as [H1 _].
  - discriminate.
  - reflexivity.
  - intros i Hi. lia.
  - reflexivity.
  - intros i Hi. assert (i = 0%nat) as -> by lia. reflexivity.
  - lia.
  - apply H1. reflexivity.
Defined.

(** *** Every poll returns *)






(** *** Enqueue, then poll *)

(** X19.  A command accepted for a device whose queue is empty comes back
    from the next poll against that device, if [max] is positive: the poll
    returns at once with this one command, its type stripped and its
    payload as sent, and leaves the queue empty. *)
Theorem enqueue_then_poll (w : world) (fuel : nat) (cmd : command_body)
    (poll : poll_body) queues :
  let device_id := device_of (cmd_deviceId cmd) in
  let command := command_of (cmd_command cmd) in
  device_of (poll_deviceId poll) = device_id ->
  queue_of device_id queues = [] ->
  command <> "" ->
  (0 < default 5 (poll_max poll))%Z ->
  exists queues',
    poll_commands w fuel poll (fst (enqueue_command cmd queues)) =
    Some (queues',
          {| resp_deviceId := device_id;
             resp_commands := [message command (cmd_payload cmd)] |}, 0%nat)
    /\ queue_of device_id queues' = [].
Proof.
  intros device_id command Hsame Hempty Hc Hmax.
  rewrite enqueue_command_eq. simpl. fold device_id command.
  destruct command eqn:Ec; [congruence|]. simpl. rewrite <- Ec.
  rewrite poll_commands_eq. simpl. rewrite Hsame.
  rewrite queue_of_insert_eq, Hempty. simpl.
  destruct (Z.ltb_spec (Z.of_nat 0) (default 5%Z (poll_max poll)))
    as [_|H]; [|simpl in H; lia].
  simpl. eexists. split; [reflexivity|]. apply queue_of_insert_eq.
Qed.

Lemma enqueue_then_poll_witness :
  exists queues',
    poll_commands slow_world 0 plain_poll
      (fst (enqueue_command padded_command ∅)) =
    Some (queues',
          {| resp_deviceId := "kiosk";
             resp_commands := [message "end" JNull] |}, 0%nat)
    /\ queue_of "kiosk" queues' = [].
Proof.
  apply (enqueue_then_poll slow_world 0 padded_command plain_poll ∅).
  - reflexivity.
  - reflexivity.
  - discriminate.
  - reflexivity.
Defined.

End RelayMore.

(** ** The local session server and the script *)

Module LocalServerFacts.
Import Json Broker LocalServer SessionSpec SessionMore.


(** [token_data.get("access_token") or token_data.get("accessToken")] on a
    dict. *)
Definition token_in (members : list (string * json)) : json :=
  if truthy (default JNull (dict_get "access_token" members))
  then default JNull (dict_get "access_token" members)
  else default JNull (dict_get "accessToken" members).

Lemma access_token_of_dict (members : list (string * json))
    (log : list http_request) :
  access_token_of (JObject members) log = (Done (token_in members), log).
Proof.
  unfold access_token_of, token_in, bind, lift, ret, py_get.
  change (match dict_get "access_token" members with
          | Some x => x | None => JNull end)
    with (default JNull (dict_get "access_token" members)).
  change (match dict_get "accessToken" members with
          | Some x => x | None => JNull end)
    with (default JNull (dict_get "accessToken" members)).
  now destruct (truthy (default JNull (dict_get "access_token" members))).
Qed.

Lemma handle_status (o : outcome server_response) :
  (forall r, o = Done r -> status r <> 404%Z) ->
  status (_handle o) <> 404%Z.
Proof.
  intros H. destruct o as [r|e]; simpl; [now apply H|].
  destruct e; discriminate.
Qed.

Lemma join_room_not_404 B A D S fmt repr up log r log' :
  join_room B A D S fmt repr up log = (Done r, log') -> status r <> 404%Z.
Proof.
  unfold join_room, bind, ret, raise.
  destruct (get_bootstrap_token B A D fmt up log) as [[td|e] l0];
    [|discriminate].
  destruct (access_token_of td l0) as [[tok|e] l1]; [|discriminate].
  destruct (truthy tok); cbn [negb]; [|discriminate].
  destruct (sliceable tok); cbn [negb]; [|discriminate].
  destruct (create_session A D S repr up tok l1) as [[sd|e] l2];
    [|discriminate].
  unfold lift. destruct (py_get sd "sessionId") as [sid|e]; [|discriminate].
  destruct (truthy sid); cbn [negb]; [|discriminate].
  destruct (join_realtime_session D S repr up tok sid l2) as [[jd|e] l3];
    [|discriminate].
  destruct (extract_livekit_creds jd) as [[t|] [u|]]; try discriminate.
  destruct (PyStr.truthy t), (PyStr.truthy u); cbn [negb]; try discriminate.
  intros [= <- _]. discriminate.
Qed.

Lemma create_session_only_not_404 B A D S fmt repr up data log r log' :
  create_session_only B A D S fmt repr up data log = (Done r, log') ->
  status r <> 404%Z.
Proof.
  unfold create_session_only, bind, ret, raise.
  destruct (get_bootstrap_token B A D fmt up log) as [[td|e] l0];
    [|discriminate].
  destruct (access_token_of td l0) as [[tok|e] l1]; [|discriminate].
  destruct (truthy tok); cbn [negb]; [|discriminate].
  unfold lift at 1. destruct (provided_of data) as [p|e]; [|discriminate].
  destruct (PyStr.truthy p); [intros [= <- _]; discriminate|].
  destruct (create_session A D S repr up tok l1) as [[sd|e] l2];
    [|discriminate].
  unfold lift. destruct (py_get sd "sessionId") as [sid|e]; [|discriminate].
  intros [= <- _]. discriminate.
Qed.

Section Server.

Variables BOOTSTRAP_URL_TEMPLATE AGENT_ID DOMAIN_URL SALESFORCE_ENDPOINT
  : option string.
Variable str_format : string -> string -> option string.
Variable py_repr : json -> string.
Variable upstream : nat -> http_request -> http_reply.

Let post :=
  do_POST BOOTSTRAP_URL_TEMPLATE AGENT_ID DOMAIN_URL SALESFORCE_ENDPOINT
    str_format py_repr upstream.

(** The three requests, for the environment in force. *)
Definition bootstrap_rq (url : string) : http_request :=
  {| http_verb := GET; http_url := url;
     http_origin := field_or DOMAIN_URL "";
     http_authorization := None |}.

Definition create_rq (access_token : json) : http_request :=
  {| http_verb := POST;
     http_url := env_str SALESFORCE_ENDPOINT
       +:+ "/einstein/ai-agent/v1.1/agents/" +:+ env_str AGENT_ID
       +:+ "/sessions";
     http_origin := field_or DOMAIN_URL "";
     http_authorization := Some ("Bearer " +:+ py_str py_repr access_token) |}.

Definition join_rq (access_token session_id : json) : http_request :=
  {| http_verb := POST;
     http_url := env_str SALESFORCE_ENDPOINT
       +:+ "/einstein/ai-agent/v1.1/realtime/sessions/"
       +:+ py_str py_repr session_id +:+ "/join";
     http_origin := field_or DOMAIN_URL "";
     http_authorization := Some ("Bearer " +:+ py_str py_repr access_token) |}.

(** X20.  The local server answers 404 exactly on the paths other than
    [/api/room/join] and [/api/session/create], and then sends nothing
    upstream. *)
Theorem not_found_only_off_the_two_paths (path : string) (data : json) :
  (status (fst (post path data)) = 404%Z <->
   path <> "/api/room/join" /\ path <> "/api/session/create") /\
  (status (fst (post path data)) = 404%Z -> snd (post path data) = []).
Proof.
  unfold post, do_POST.
  destruct (String.eqb_spec path "/api/room/join") as [->|H1].
  - destruct (join_room _ _ _ _ _ _ _ []) as [o log] eqn:E. simpl.
    assert (Hs : status (_handle o) <> 404%Z).
    { apply handle_status. intros r ->. now apply join_room_not_404 in E. }
    split; [split; [tauto | intros [H _]; congruence] | tauto].
  - destruct (String.eqb_spec path "/api/session/create") as [->|H2].
    + destruct (create_session_only _ _ _ _ _ _ _ _ []) as [o log] eqn:E.
      simpl.
      assert (Hs : status (_handle o) <> 404%Z).
      { apply handle_status. intros r ->.
        now apply create_session_only_not_404 in E. }
      split; [split; [tauto | intros [_ H]; congruence] | tauto].
    + simpl. split; [split; [auto | reflexivity] | reflexivity].
Qed.

(** X21.  On [/api/session/create], a request that brings a session id of
    its own gets it back, stripped, once the bootstrap call has produced an
    access token: only the bootstrap request is sent, no session is created
    upstream, and the Salesforce endpoint need not be set.  If the bootstrap
    call fails the request is refused all the same. *)
Theorem provided_session_id_is_echoed (url : string)
    (members body : list (string * json)) (s : string) :
  PyStr.truthy_opt BOOTSTRAP_URL_TEMPLATE = true ->
  PyStr.truthy_opt AGENT_ID = true ->
  str_format (env_str BOOTSTRAP_URL_TEMPLATE) (env_str AGENT_ID) = Some url ->
  dict_get "sessionId" body = Some (JString s) ->
  PyStr.strip s <> "" ->
  (upstream 0 (bootstrap_rq url) = Replied (JObject members) ->
   truthy (token_in members) = true ->
   post "/api/session/create" (JObject body) =
   (SessionCreated (JString (PyStr.strip s)), [bootstrap_rq url])) /\
  (forall e, upstream 0 (bootstrap_rq url) = Failed e ->
   post "/api/session/create" (JObject body) =
   (match e with RequestException => BadGateway | _ => ServerError end,
    [bootstrap_rq url])).
Proof.
  intros HB HA Hf Hid Hs. unfold post, do_POST. simpl.
  unfold create_session_only, get_bootstrap_token.
  rewrite HB, HA, Hf. simpl. unfold bind, send. simpl.
  fold (bootstrap_rq url). split.
  - intros -> Htok. rewrite access_token_of_dict, Htok. simpl.
    unfold lift, provided_of, py_get. rewrite Hid.
    assert (Ht : truthy (JString s) = true).
    { destruct s; [now destruct Hs | reflexivity]. }
    rewrite Ht.
    destruct (PyStr.strip s) eqn:E; [congruence|]. reflexivity.
  - intros e ->. now destruct e.
Qed.

(** X22.  On [/api/session/create], a request without a session id of its
    own gets whatever the create reply holds under [sessionId], with status
    200: the id is not checked, and a reply without one gives [null]. *)
Theorem created_session_id_is_not_checked (url : string)
    (members created : list (string * json)) (data : json) :
  PyStr.truthy_opt BOOTSTRAP_URL_TEMPLATE = true ->
  PyStr.truthy_opt AGENT_ID = true ->
  PyStr.truthy_opt SALESFORCE_ENDPOINT = true ->
  str_format (env_str BOOTSTRAP_URL_TEMPLATE) (env_str AGENT_ID) = Some url ->
  upstream 0 (bootstrap_rq url) = Replied (JObject members) ->
  truthy (token_in members) = true ->
  provided_of data = Done "" ->
  upstream 1 (create_rq (token_in members)) = Replied (JObject created) ->
  post "/api/session/create" data =
  (SessionCreated (default JNull (dict_get "sessionId" created)),
   [bootstrap_rq url; create_rq (token_in members)]).
Proof.
  intros HB HA HS Hf H0 Htok Hp H1. unfold post, do_POST. simpl.
  unfold create_session_only, get_bootstrap_token, create_session.
  rewrite HB, HA, HS, Hf. simpl. unfold bind, send. simpl.
  fold (bootstrap_rq url). rewrite H0.
  rewrite access_token_of_dict, Htok. simpl.
  rewrite Hp. simpl.
  fold (create_rq (token_in members)). rewrite H1. simpl.
  now destruct (dict_get "sessionId" created).
Qed.

(** X23.  With the Salesforce endpoint unset or empty, [/api/room/join]
    finds out only after the bootstrap call: the bootstrap request is sent,
    and when it brings an access token the answer is 500. *)
Theorem endpoint_is_checked_after_bootstrap (url : string)
    (members : list (string * json)) (data : json) :
  PyStr.truthy_opt BOOTSTRAP_URL_TEMPLATE = true ->
  PyStr.truthy_opt AGENT_ID = true ->
  PyStr.truthy_opt SALESFORCE_ENDPOINT = false ->
  str_format (env_str BOOTSTRAP_URL_TEMPLATE) (env_str AGENT_ID) = Some url ->
  upstream 0 (bootstrap_rq url) = Replied (JObject members) ->
  post "/api/room/join" data = (ServerError, [bootstrap_rq url]).
Proof.
  intros HB HA HS Hf H0. unfold post, do_POST. simpl.
  unfold join_room, get_bootstrap_token, create_session.
  rewrite HB, HA, HS, Hf. simpl. unfold bind, send. simpl.
  fold (bootstrap_rq url). rewrite H0.
  rewrite access_token_of_dict.
  destruct (truthy (token_in members)); simpl; [|reflexivity].
  destruct (sliceable (token_in members)); reflexivity.
Qed.

(** X24.  [get_livekit_credentials] checks nothing on its way: whenever the
    settings are there and upstream answers every request with a JSON
    object, it sends all three requests and returns a result, with the
    access token and the session id read from the replies as they are,
    [None] included. *)
Theorem script_checks_nothing (url : string) :
  PyStr.truthy_opt BOOTSTRAP_URL_TEMPLATE = true ->
  PyStr.truthy_opt AGENT_ID = true ->
  PyStr.truthy_opt SALESFORCE_ENDPOINT = true ->
  str_format (env_str BOOTSTRAP_URL_TEMPLATE) (env_str AGENT_ID) = Some url ->
  (forall n rq, exists members, upstream n rq = Replied (JObject members)) ->
  exists members created joined,
    let tok := token_in members in
    let sid := default JNull (dict_get "sessionId" created) in
    upstream 0 (bootstrap_rq url) = Replied (JObject members) /\
    upstream 1 (create_rq tok) = Replied (JObject created) /\
    upstream 2 (join_rq tok sid) = Replied (JObject joined) /\
    get_livekit_credentials BOOTSTRAP_URL_TEMPLATE AGENT_ID DOMAIN_URL
      SALESFORCE_ENDPOINT str_format py_repr upstream =
    (Some (sid, snd (extract_livekit_creds (JObject joined)),
           fst (extract_livekit_creds (JObject joined))),
     [bootstrap_rq url; create_rq tok; join_rq tok sid]).
Proof.
  intros HB HA HS Hf Hup.
  destruct (Hup 0%nat (bootstrap_rq url)) as [members H0].
  destruct (Hup 1%nat (create_rq (token_in members))) as [created H1].
  destruct (Hup 2%nat (join_rq (token_in members)
              (default JNull (dict_get "sessionId" created))))
    as [joined H2].
  exists members, created, joined. simpl.
  split; [exact H0|]. split; [exact H1|]. split; [exact H2|].
  unfold get_livekit_credentials, get_bootstrap_token, create_session,
    join_realtime_session.
  rewrite HB, HA, HS, Hf. simpl. unfold bind, send. simpl.
  fold (bootstrap_rq url). rewrite H0.
  rewrite access_token_of_dict. simpl.
  fold (create_rq (token_in members)). rewrite H1. simpl.
  change (match dict_get "sessionId" created with
          | Some x => x | None => JNull end)
    with (default JNull (dict_get "sessionId" created)).
  fold (join_rq (token_in members)
          (default JNull (dict_get "sessionId" created))).
  rewrite H2. simpl.
  now destruct (extract_livekit_creds (JObject joined)).
Qed.

End Server.


(** Runs of the local server against an upstream that answers every call,
    with the bootstrap template and the agent id set. *)
Definition local_post (endpoint : option string)
    (upstream : nat -> http_request -> http_reply) (path : string)
    (data : json) : server_response * list http_request :=
  do_POST (Some "https://site/bootstrap") (Some "agent") None endpoint
    (fun template _ => Some template) (fun _ => "None") upstream path data.

(** Upstream answers every call with an empty object. *)
Definition empty_replies (n : nat) (rq : http_request) : http_reply :=
  Replied (JObject []).

(** Upstream hands out a token and then answers with empty objects. *)
Definition token_then_empty (n : nat) (rq : http_request) : http_reply :=
  match n with
  | 0 => Replied (JObject [("access_token", JString "bearer")])
  | _ => Replied (JObject [])
  end.

Definition local_bootstrap : http_request :=
  {| http_verb := GET; http_url := "https://site/bootstrap";
     http_origin := ""; http_authorization := None |}.

Lemma not_found_only_off_the_two_paths_witness :
  snd (local_post None sample_upstream "/health" JNull) = [].
Proof.
  apply (not_found_only_off_the_two_paths (Some "https://site/bootstrap")
           (Some "agent") None None (fun template _ => Some template)
           (fun _ => "None") sample_upstream "/health" JNull).
  reflexivity.
Defined.

Lemma provided_session_id_is_echoed_witness :
  local_post None sample_upstream "/api/session/create"
    (JObject [("sessionId", JString " s-9 ")]) =
  (SessionCreated (JString "s-9"), [local_bootstrap]).
Proof.
  pose proof (provided_session_id_is_echoed (Some "https://site/bootstrap")
                (Some "agent") None None (fun template _ => Some template)
                (fun _ => "None") sample_upstream "https://site/bootstrap"
                [("access_token", JString "bearer")]
                [("sessionId", JString " s-9 ")] " s-9 ") as H.
  destruct H as [H _];
    [reflexivity | reflexivity | reflexivity | reflexivity | discriminate |].
  apply H; reflexivity.
Defined.

Lemma created_session_id_is_not_checked_witness :
  local_post (Some "https://api") token_then_empty "/api/session/create"
    (JObject []) =
  (SessionCreated JNull,
   [local_bootstrap;
    {| http_verb := POST;
       http_url := "https://api/einstein/ai-agent/v1.1/agents/agent/sessions";
       http_origin := "";
       http_authorization := Some "Bearer bearer" |}]).
Proof.
  apply (created_session_id_is_not_checked (Some "https://site/bootstrap")
           (Some "agent") None (Some "https://api")
           (fun template _ => Some template) (fun _ => "None")
           token_then_empty "https://site/bootstrap"
           [("access_token", JString "bearer")] [] (JObject []));
    reflexivity.
Defined.

Lemma endpoint_is_checked_after_bootstrap_witness :
  local_post None sample_upstream "/api/room/join" (JObject []) =
  (ServerError, [local_bootstrap]).
Proof.
  apply (endpoint_is_checked_after_bootstrap (Some "https://site/bootstrap")
           (Some "agent") None None (fun template _ => Some template)
           (fun _ => "None") sample_upstream "https://site/bootstrap"
           [("access_token", JString "bearer")] (JObject []));
    reflexivity.
Defined.

Lemma script_checks_nothing_witness :
  exists log,
    get_livekit_credentials (Some "https://site/bootstrap") (Some "agent")
      None (Some "https://api") (fun template _ => Some template)
      (fun _ => "None") empty_replies =
    (Some (JNull, None, None), log) /\
    map http_authorization log =
    [None; Some "Bearer None"; Some "Bearer None"].
Proof.
  destruct (script_checks_nothing (Some "https://site/bootstrap")
              (Some "agent") None (Some "https://api")
              (fun template _ => Some template) (fun _ => "None")
              empty_replies "https://site/bootstrap")
    as (members & created & joined & H0 & H1 & H2 & Hrun);
    try reflexivity.
  { intros n rq. exists []. reflexivity. }
  injection H0 as <-. injection H1 as <-. injection H2 as <-.
  eexists. split; [exact Hrun | reflexivity].
Defined.


End LocalServerFacts.
